(** * Triage carebot: the reply generator and the chat turn handler

    A shallow embedding of [doctor_agent.py] and of the [/api/chat] route of
    [main.py], with the properties of the turn handler, the reply shaper and
    the triage display table proved over it.

    Python [str] values are Rocq strings holding the UTF-8 encoding of the
    text.  Every character the code inspects (the space, the sentence
    terminals, the characters of the completion marker) is ASCII, and an ASCII
    byte never occurs inside the encoding of another character, so searching
    and splitting the bytes is searching and splitting the characters.  The
    one operation that looks at non-ASCII characters is [str.strip], whose
    whitespace set is written out on the encodings below.

    The modules the route imports and whose code is not part of the two
    files (the extractor, the evaluator, the verifier, the session log), the
    call to the model and the clock are parameters of a request: each call
    returns a value or raises.  A request is run from its first statement
    to its last; requests that interleave at an [await] are outside the
    model.  [print] is left out. *)

From Stdlib Require Import ZArith NArith Ascii String DecimalString List Bool Lia.
From stdpp Require Import gmap strings list fin_maps.

Open Scope string_scope.
Open Scope list_scope.

(** ** Python string primitives used by the two files *)

Module PyStr.

Definition code (a : ascii) : N := N_of_ascii a.

(** [str.isspace] on the ASCII range: TAB, LF, VT, FF, CR, FS, GS, RS, US and
    the space. *)
Definition ws1 (a : ascii) : bool :=
  ((9 <=? code a) && (code a <=? 13) || (28 <=? code a) && (code a <=? 32))%N.

(** U+0085 and U+00A0, as two bytes. *)
Definition ws2 (a b : ascii) : bool :=
  ((code a =? 194) && ((code b =? 133) || (code b =? 160)))%N.

(** U+1680, U+2000..U+200A, U+2028, U+2029, U+202F, U+205F and U+3000, as three
    bytes. *)
Definition ws3 (a b c : ascii) : bool :=
  ((code a =? 225) && (code b =? 154) && (code c =? 128)
   || (code a =? 226) && (code b =? 128)
      && ((128 <=? code c) && (code c <=? 138)
          || (code c =? 168) || (code c =? 169) || (code c =? 175))
   || (code a =? 226) && (code b =? 129) && (code c =? 159)
   || (code a =? 227) && (code b =? 128) && (code c =? 128))%N.

Section StripFront.
Variable w1 : ascii -> bool.
Variable w2 : ascii -> ascii -> bool.
Variable w3 : ascii -> ascii -> ascii -> bool.

(** Does the text begin with a whitespace character? *)
Definition ws_head (s : string) : bool :=
  match s with
  | String a (String b (String c _)) => w1 a || w2 a b || w3 a b c
  | String a (String b "") => w1 a || w2 a b
  | String a "" => w1 a
  | "" => false
  end.

(** Drop whitespace characters from the front, one character at a time. *)
Fixpoint strip_front (s : string) : string :=
  match s with
  | "" => ""
  | String a s1 =>
    if w1 a then strip_front s1
    else match s1 with
         | "" => s
         | String b s2 =>
           if w2 a b then strip_front s2
           else match s2 with
                | "" => s
                | String c s3 => if w3 a b c then strip_front s3 else s
                end
         end
  end.
End StripFront.

Definition lstrip (s : string) : string := strip_front ws1 ws2 ws3 s.

Fixpoint srev (s : string) : string :=
  match s with
  | "" => ""
  | String c s' => srev s' +:+ String c ""
  end.

(** Stripping the end is stripping the front of the reversed text, with the
    encodings read backwards. *)
Definition ws2r (a b : ascii) : bool := ws2 b a.
Definition ws3r (a b c : ascii) : bool := ws3 c b a.

Definition rstrip (s : string) : string :=
  srev (strip_front ws1 ws2r ws3r (srev s)).

(** [s.strip()]: leading whitespace goes first, then trailing whitespace. *)
Definition strip (s : string) : string := rstrip (lstrip s).

(** [needle in s]. *)
Fixpoint contains (needle s : string) : bool :=
  String.prefix needle s
  || match s with
     | "" => false
     | String _ s' => contains needle s'
     end.

(** [s.replace(old, new)] for a non-empty [old]: occurrences are found from
    the left and do not overlap.  [skip] counts the characters of a matched
    occurrence that are still to be passed over. *)
Fixpoint replace_from (skip : nat) (old new s : string) : string :=
  match s with
  | "" => ""
  | String c s' =>
    match skip with
    | S k => replace_from k old new s'
    | O =>
      if String.prefix old s
      then new +:+ replace_from (String.length old - 1) old new s'
      else String c (replace_from 0 old new s')
    end
  end.

Definition replace (old new s : string) : string := replace_from 0 old new s.

(** [sep.join(parts)]. *)
Definition join (sep : string) (parts : list string) : string :=
  String.concat sep parts.

(** [f"{n}"] for an integer. *)
Definition format_int (n : Z) : string := NilZero.string_of_int (Z.to_int n).

Definition newline : string := String "010"%char "".

End PyStr.

(** ** doctor_agent.py *)

Module DoctorAgent.
Import PyStr.

Definition END_CONVO : string := "<END_CONVO>".

Definition is_space (a : ascii) : bool := Ascii.eqb a " ".

(** The character class [[.!?]] of the sentence pattern. *)
Definition is_terminal (a : ascii) : bool :=
  Ascii.eqb a "." || Ascii.eqb a "!" || Ascii.eqb a "?".

(** [re.split(r'(?<=[.!?]) +', s)].  A match starts at a space that directly
    follows a terminal and runs over all the spaces after it; the scanner
    remembers whether the last character read was a terminal, or whether it is
    inside a match. *)
Inductive scan : Type := AfterOther | AfterTerminal | InGap.

Definition push (c : ascii) (ps : list string) : list string :=
  match ps with
  | [] => [String c ""]
  | p :: ps' => String c p :: ps'
  end.

Fixpoint re_split_from (st : scan) (s : string) : list string :=
  match s with
  | "" => [""]
  | String c s' =>
    if is_space c then
      match st with
      | AfterTerminal => "" :: re_split_from InGap s'
      | InGap => re_split_from InGap s'
      | AfterOther => push c (re_split_from AfterOther s')
      end
    else push c (re_split_from (if is_terminal c then AfterTerminal else AfterOther) s')
  end.

Definition re_split (s : string) : list string := re_split_from AfterOther s.

(** [_shorten_reply(text, max_sentences=4)]. *)
Definition _shorten_reply (text : string) (max_sentences : nat) : string :=
  if String.eqb text "" then ""
  else join " " (take max_sentences (re_split (strip text))).

Definition default_max_sentences : nat := 4.

(** Lines 82 to 88 of [doctor_reply]: the reply shaper.  The raw reply is cut
    to four sentences, the marker is looked for in the cut text, and the cut
    text is returned without the marker and stripped. *)
Definition shape (raw_reply : string) : string * bool :=
  let reply := _shorten_reply raw_reply default_max_sentences in
  let end_convo := contains END_CONVO reply in
  (strip (replace END_CONVO "" reply), end_convo).

(** The module-level constant [SYSTEM_PROMPT]. *)
Definition SYSTEM_PROMPT : string :=
  "You are a compassionate general practice physician." +:+ newline +:+
  "Your replies must be short, clear, and focused — no more than 3–4 sentences." +:+ newline +:+
  "Ask open-ended questions first, then clarifying questions." +:+ newline +:+
  "Use empathetic, non-alarming language. Avoid jargon or explain it simply." +:+ newline +:+
  "Do not give a definitive diagnosis — focus on understanding symptoms, severity, timing, and red flags." +:+ newline +:+
  "When provided a triage_context, deliver it clearly and explain next steps." +:+ newline +:+
  "Avoid unnecessary repetition or filler words." +:+ newline +:+
  "If you believe the consultation is complete, end your response with the token <END_CONVO>." +:+ newline.

(** A message is a Python dict from strings to strings. *)
Abbreviation pydict := (gmap string string).

(** The dict literal [{"role": role, "content": content}]. *)
Definition message (role content : string) : pydict :=
  <["role" := role]> (<["content" := content]> ∅).

Definition truthy (s : string) : bool := negb (String.eqb s "").

(** [m.get("content") or m.get("message") or ""]. *)
Definition content_of (m : pydict) : string :=
  match m !! "content" with
  | Some c => if truthy c then c else
      match m !! "message" with
      | Some c' => if truthy c' then c' else ""
      | None => ""
      end
  | None =>
      match m !! "message" with
      | Some c' => if truthy c' then c' else ""
      | None => ""
      end
  end.

Definition in_list (x : string) (l : list string) : bool :=
  existsb (String.eqb x) l.

(** The body of the loop of [build_messages]: the messages one history entry
    contributes. *)
Definition normalize (m : pydict) : list pydict :=
  let role := default "user" (m !! "role") in
  let content := content_of m in
  if negb (truthy content) then []
  else if in_list role ["user"; "patient"] then [message "user" content]
  else if in_list role ["assistant"; "doctor"] then [message "assistant" content]
  else [].

(** [build_messages(message_history, triage_context=None)]. *)
Definition build_messages (message_history : list pydict)
    (triage_context : option string) : list pydict :=
  [message "system" SYSTEM_PROMPT]
  ++ concat (map normalize message_history)
  ++ match triage_context with
     | Some ctx =>
       if truthy ctx then [message "system" ("Triage context: " +:+ ctx)] else []
     | None => []
     end.

(** What [ollama.chat] does: it answers with a content (the empty text when
    the answer has none), or raises [ollama.ResponseError] with a text, or
    raises something else. *)
Inductive ollama_result : Type :=
  | ChatResponse (content : string)
  | ResponseError (error_msg : string)
  | OtherException (error_msg : string).

Definition EMPTY_REPLY : string :=
  "I'm sorry, I didn't receive a proper response. Could you rephrase your question?".
Definition MEMORY_REPLY : string :=
  "Mistral requires more RAM. Close other applications and try again.".
Definition MODEL_ERROR_REPLY : string :=
  "The AI model encountered an error. Please try again.".
Definition TROUBLE_REPLY : string :=
  "I'm having trouble processing your request. Please try again.".

(** The part of [doctor_reply] after the call: what is returned for each
    outcome of [ollama.chat]. *)
Definition reply_of (r : ollama_result) : string * bool :=
  match r with
  | ChatResponse raw_reply =>
    if negb (truthy raw_reply) then (EMPTY_REPLY, false) else shape raw_reply
  | ResponseError error_msg =>
    if contains "system memory" error_msg then (MEMORY_REPLY, false)
    else (MODEL_ERROR_REPLY, false)
  | OtherException _ => (TROUBLE_REPLY, false)
  end.

Section Reply.
(** The state of the world the call to the model may change, and the call. *)
Context {W : Type}.
Variable ollama_chat : list pydict -> W -> W * ollama_result.

(** [doctor_reply(message_history, triage_context=None)]. *)
Definition doctor_reply (message_history : list pydict)
    (triage_context : option string) (w : W) : W * (string * bool) :=
  let messages := build_messages message_history triage_context in
  let (w', response) := ollama_chat messages w in
  (w', reply_of response).
End Reply.

End DoctorAgent.

(** ** main.py: the [/api/chat] route *)

Module Main.
Import PyStr DoctorAgent.

(** A call returns a value or raises an exception (a subclass of
    [Exception]) with a text. *)
Inductive result (A : Type) : Type :=
  | Ok (a : A)
  | Raise (e : string).
Arguments Ok {A} a.
Arguments Raise {A} e.

(** [SimpleChatRequest]. *)
Record SimpleChatRequest : Type := {
  req_message : string;
  req_session_id : option string
}.

(** The dict [triage_info]. *)
Record triage_info : Type := {
  level : string;
  reason : string;
  color : string;
  status : string;
  severity_flag : bool
}.

(** The dict handed to [log_session]. *)
Record log_record : Type := {
  log_session_turns : list pydict;
  log_structured : pydict;
  log_triage : triage_info;
  log_ts : Z
}.

(** The dict the route returns. *)
Record Response : Type := {
  success : bool;
  response : string;
  triage : triage_info;
  structured : pydict
}.

(** The collaborators of one request.  Their code is outside the two files:
    each is a call that returns or raises.  [time_int] is the value of
    [int(time.time())] when the session id is made, [time_ts] the clock
    reading put in the log record (it is only passed on). *)
Record Env : Type := {
  ollama : list pydict -> ollama_result;
  extract_structured : string -> result pydict;
  evaluate_triage : pydict -> result pydict;
  verify : pydict -> list string -> result pydict;
  log_session : string -> log_record -> result unit;
  time_int : Z;
  time_ts : Z
}.

(** The calls a request makes to its collaborators, with their arguments. *)
Inductive Call : Type :=
  | CallOllama (messages : list pydict)
  | CallExtract (conv_text : string)
  | CallEvaluate (structured : pydict)
  | CallVerify (raw_triage : pydict) (rules : list string)
  | CallLog (sid : string) (record : log_record).

(** The state of the process: the two module-level variables [SESSIONS] and
    [message_logs], and the calls made so far. *)
Record World : Type := {
  SESSIONS : gmap string (list pydict);
  message_logs : list pydict;
  calls : list Call
}.

(** Statements of the route: they change the world and return or raise. *)
Definition M (A : Type) : Type := World -> World * result A.

Definition ret {A : Type} (a : A) : M A := fun w => (w, Ok a).

Definition bind {A B : Type} (c : M A) (k : A -> M B) : M B :=
  fun w =>
    match c w with
    | (w', Ok a) => k a w'
    | (w', Raise e) => (w', Raise e)
    end.

Notation "x <- c ;; k" := (bind c (fun x => k))
  (at level 100, c at next level, right associativity).
Notation "c ;; k" := (bind c (fun _ => k))
  (at level 100, right associativity).

(** [try: c except Exception: h]. *)
Definition try_except {A : Type} (c : M A) (h : string -> M A) : M A :=
  fun w =>
    match c w with
    | (w', Ok a) => (w', Ok a)
    | (w', Raise e) => h e w'
    end.

(** A call to a collaborator is recorded, then returns or raises. *)
Definition record_call (ev : Call) (w : World) : World :=
  {| SESSIONS := SESSIONS w; message_logs := message_logs w;
     calls := calls w ++ [ev] |}.

Definition call {A : Type} (ev : Call) (r : result A) : M A :=
  fun w => (record_call ev w, r).

(** [ollama.chat(model=..., messages=messages, options=...)]. *)
Definition ollama_chat (E : Env) (messages : list pydict) (w : World)
    : World * ollama_result :=
  (record_call (CallOllama messages) w, ollama E messages).

(** A call that has no [raise] of its own, as a statement. *)
Definition total {A : Type} (f : World -> World * A) : M A :=
  fun w => let (w', a) := f w in (w', Ok a).

(** [if sid not in SESSIONS: SESSIONS[sid] = []; message_logs.clear()]. *)
Definition open_session (sid : string) : M unit :=
  fun w =>
    match SESSIONS w !! sid with
    | Some _ => (w, Ok tt)
    | None =>
      ({| SESSIONS := <[sid := []]> (SESSIONS w); message_logs := [];
          calls := calls w |}, Ok tt)
    end.

(** [SESSIONS[sid]]. *)
Definition session (sid : string) : M (list pydict) :=
  fun w =>
    match SESSIONS w !! sid with
    | Some turns => (w, Ok turns)
    | None => (w, Raise "KeyError")
    end.

(** [SESSIONS[sid].append(m)]: the list held by the store is changed in
    place. *)
Definition session_append (sid : string) (m : pydict) : M unit :=
  fun w =>
    match SESSIONS w !! sid with
    | Some turns =>
      ({| SESSIONS := <[sid := turns ++ [m]]> (SESSIONS w);
          message_logs := message_logs w; calls := calls w |}, Ok tt)
    | None => (w, Raise "KeyError")
    end.

(** [message_logs.append(m)]. *)
Definition logs_append (m : pydict) : M unit :=
  fun w =>
    ({| SESSIONS := SESSIONS w; message_logs := message_logs w ++ [m];
        calls := calls w |}, Ok tt).

(** The dict literal [{"role": role, "message": text}] of the message log. *)
Definition log_message (role text : string) : pydict :=
  <["role" := role]> (<["message" := text]> ∅).

(** [req.session_id or f"session-{int(time.time())}"]. *)
Definition session_id (E : Env) (req : SimpleChatRequest) : string :=
  match req_session_id req with
  | Some sid => if truthy sid then sid else "session-" +:+ format_int (time_int E)
  | None => "session-" +:+ format_int (time_int E)
  end.

(** [f"{m['role']}: {m.get('content', '')}"]. *)
Definition render (m : pydict) : result string :=
  match m !! "role" with
  | Some role => Ok (role +:+ ": " +:+ default "" (m !! "content"))
  | None => Raise "KeyError"
  end.

Fixpoint render_all (turns : list pydict) : result (list string) :=
  match turns with
  | [] => Ok []
  | m :: rest =>
    match render m with
    | Ok line =>
      match render_all rest with
      | Ok lines => Ok (line :: lines)
      | Raise e => Raise e
      end
    | Raise e => Raise e
    end
  end.

(** Line 210: the transcript of a turn list. *)
Definition conv_text_of (turns : list pydict) : M string :=
  fun w =>
    match render_all turns with
    | Ok lines => (w, Ok (join newline lines))
    | Raise e => (w, Raise e)
    end.

Definition CHAT_FALLBACK_REPLY : string :=
  "I'm here to help with your health concerns. Can you tell me more about your symptoms?".

Definition DEFAULT_REASON : string :=
  "No red flags found; symptoms appear non-urgent.".

(** The dict literal of the [except] branch around [evaluate_triage]. *)
Definition FALLBACK_TRIAGE : pydict :=
  <["level" := "Routine"]> (<["reason" := DEFAULT_REASON]> ∅).

(** The dict literal [triage_display]. *)
Definition display_entry (color status : string) : pydict :=
  <["color" := color]> (<["status" := status]> ∅).

Definition triage_display : gmap string pydict :=
  <["Emergency" := display_entry "#e63946" "🔴 Emergency — Immediate care required!"]>
  (<["Urgent" := display_entry "#ff8800" "🟠 Urgent — Needs prompt medical attention."]>
  (<["Routine" := display_entry "#2a9d8f" "🟢 Routine — No red flags; symptoms appear non-urgent."]>
  (<["Normal" := display_entry "#2a9d8f" "🟢 Normal — Stable, no emergency detected."]> ∅))).

(** Lines 237 and 238: the color and the status shown for a level. *)
Definition present (level : string) : string * string :=
  (default "#2a9d8f" (default ∅ (triage_display !! level) !! "color"),
   default "🟢 Routine condition" (default ∅ (triage_display !! level) !! "status")).

(** [chat(req)]. *)
Definition chat (E : Env) (req : SimpleChatRequest) : M Response :=
  let sid := session_id E req in
  open_session sid ;;
  (* Store patient message *)
  let user_message := log_message "patient" (req_message req) in
  session_append sid (message "user" (req_message req)) ;;
  logs_append user_message ;;
  (* Doctor Response Handling *)
  result <- try_except
      (history <- session sid ;;
       total (doctor_reply (ollama_chat E) history None))
      (fun _ => ret (CHAT_FALLBACK_REPLY, false)) ;;
  let (reply, severity_flag) := (result : string * bool) in
  (* Append to session *)
  session_append sid (message "assistant" reply) ;;
  logs_append (log_message "doctor" reply) ;;
  (* Structured data & triage *)
  turns <- session sid ;;
  conv_text <- conv_text_of turns ;;
  structured <- try_except
      (call (CallExtract conv_text) (extract_structured E conv_text))
      (fun _ => ret ∅) ;;
  raw_triage <- try_except
      (call (CallEvaluate structured) (evaluate_triage E structured))
      (fun _ => ret FALLBACK_TRIAGE) ;;
  verified <- call (CallVerify raw_triage []) (verify E raw_triage []) ;;
  (* Map triage level to color and label *)
  let level := default "Routine" (verified !! "level") in
  let reason := default DEFAULT_REASON (verified !! "reason") in
  let triage_info :=
    {| level := level; reason := reason;
       color := fst (present level); status := snd (present level);
       severity_flag := severity_flag |} in
  (* Save conversation log *)
  turns' <- session sid ;;
  let record :=
    {| log_session_turns := turns'; log_structured := structured;
       log_triage := triage_info; log_ts := time_ts E |} in
  call (CallLog sid record) (log_session E sid record) ;;
  ret {| success := true; response := reply; triage := triage_info;
         structured := structured |}.

(** The world a process starts in. *)
Definition initial : World := {| SESSIONS := ∅; message_logs := []; calls := [] |}.

End Main.

(** ** Sentences, as the pattern of [_shorten_reply] sees them *)

Module Sentences.
Import PyStr DoctorAgent.

(** The state of the scanner of [re_split_from] after one more character. *)
Definition next (st : scan) (c : ascii) : scan :=
  if is_space c then
    match st with
    | AfterOther => AfterOther
    | _ => InGap
    end
  else if is_terminal c then AfterTerminal else AfterOther.

Fixpoint run (st : scan) (p : string) : scan :=
  match p with
  | "" => st
  | String c p' => run (next st c) p'
  end.

Definition boundary (st : scan) (c : ascii) : bool :=
  is_space c && match st with AfterOther => false | _ => true end.

(** [solid st p]: read from state [st], the text [p] has no match of the
    pattern in it (no terminal directly followed by a space, and no space at
    its start when [st] is after a terminal or inside a match). *)
Fixpoint solid (st : scan) (p : string) : bool :=
  match p with
  | "" => true
  | String c p' => negb (boundary st c) && solid (next st c) p'
  end.

Definition after_terminal (st : scan) : bool :=
  match st with AfterTerminal => true | _ => false end.

(** A sentence that the pattern can end: solid, and its last character is a
    terminal. *)
Definition closed (st : scan) (p : string) : bool :=
  solid st p && after_terminal (run st p).

(** A list of sentences: all but the last are closed, the last is solid. *)
Fixpoint chain (st : scan) (ps : list string) : bool :=
  match ps with
  | [] => false
  | [p] => solid st p
  | p :: ps' => closed st p && chain InGap ps'
  end.

Fixpoint spaces (n : nat) : string :=
  match n with
  | O => ""
  | S n' => String " " (spaces n')
  end.

(** Sentences written one after the other; the sentence [p] of a pair
    [(p, g)] is followed by [S g] spaces. *)
Fixpoint glue (l : list (string * nat)) (last : string) : string :=
  match l with
  | [] => last
  | (p, g) :: l' => p +:+ spaces (S g) +:+ glue l' last
  end.

(** [p] added in front of the first string of a list. *)
Definition pushs (p : string) (ps : list string) : list string :=
  match ps with
  | [] => [p]
  | q :: ps' => (p +:+ q) :: ps'
  end.

(** [t] occurs in [s]. *)
Definition occurs (t s : string) : Prop :=
  exists a b : string, s = a +:+ t +:+ b.

End Sentences.

(** ** The sentence rule as the specification words it *)

Module Reading.
Import PyStr DoctorAgent.

(** The sentence rule in the words of the specification, for comparison with
    [_shorten_reply]: a sentence ends at a terminal followed by whitespace, of
    any kind; at most four sentences are kept and joined with single
    spaces. *)
Fixpoint split_from (st : scan) (s : string) : list string :=
  match s with
  | "" => [""]
  | String c s' =>
    if ws1 c then
      match st with
      | AfterTerminal => "" :: split_from InGap s'
      | InGap => split_from InGap s'
      | AfterOther => push c (split_from AfterOther s')
      end
    else push c (split_from (if is_terminal c then AfterTerminal else AfterOther) s')
  end.

Definition shorten (text : string) : string :=
  join " " (take 4 (split_from AfterOther text)).

End Reading.

(** ** Views of the store and of the calls, used to state the properties *)

Module Views.
Import PyStr DoctorAgent Main.

(** A turn as the route stores it, from its role and its text. *)
Definition turn (p : string * string) : pydict := message (fst p) (snd p).

(** The line of the transcript for a turn. *)
Definition line (p : string * string) : string := fst p +:+ ": " +:+ snd p.

(** The roles the route stores. *)
Definition speaker (p : string * string) : Prop :=
  fst p = "user" \/ fst p = "assistant".

Definition has_text (p : string * string) : bool := truthy (snd p).

(** Every stored turn list is a list of turns with the two roles. *)
Definition store_ok (w : World) : Prop :=
  forall sid turns, SESSIONS w !! sid = Some turns ->
    exists ps, turns = map turn ps /\ Forall speaker ps.

(** The transcripts handed to the extractor, in the order of the calls. *)
Fixpoint extract_calls (cs : list Call) : list string :=
  match cs with
  | [] => []
  | CallExtract t :: cs' => t :: extract_calls cs'
  | _ :: cs' => extract_calls cs'
  end.

(** The message lists sent to the model, in the order of the calls. *)
Fixpoint ollama_calls (cs : list Call) : list (list pydict) :=
  match cs with
  | [] => []
  | CallOllama ms :: cs' => ms :: ollama_calls cs'
  | _ :: cs' => ollama_calls cs'
  end.

(** The failures of the call to the model: an error response, an empty
    response, any other exception. *)
Definition backend_failed (r : ollama_result) : bool :=
  match r with
  | ChatResponse content => negb (truthy content)
  | ResponseError _ => true
  | OtherException _ => true
  end.

(** The turns a session holds before a request, the messages the request
    sends to the model, and what the reply generator answers. *)
Definition prior_turns (E : Env) (req : SimpleChatRequest) (w : World) : list pydict :=
  default [] (SESSIONS w !! session_id E req).

Definition sent_messages (E : Env) (req : SimpleChatRequest) (w : World) : list pydict :=
  build_messages (prior_turns E req w ++ [message "user" (req_message req)]) None.

Definition answer (E : Env) (req : SimpleChatRequest) (w : World) : string * bool :=
  reply_of (ollama E (sent_messages E req w)).

(** The world of a request once both turns are appended. *)
Definition after_reply (E : Env) (req : SimpleChatRequest) (w : World) : World :=
  {| SESSIONS :=
       <[session_id E req :=
           prior_turns E req w
           ++ [message "user" (req_message req);
               message "assistant" (fst (answer E req w))]]> (SESSIONS w);
     message_logs :=
       match SESSIONS w !! session_id E req with
       | Some _ => message_logs w
       | None => []
       end
       ++ [log_message "patient" (req_message req);
           log_message "doctor" (fst (answer E req w))];
     calls := calls w ++ [CallOllama (sent_messages E req w)] |}.

(** The statements of [chat] from the transcript on, for a session id, a
    reply and a flag. *)
Definition assess (E : Env) (sid reply : string) (severity_flag : bool) : M Response :=
  turns <- session sid ;;
  conv_text <- conv_text_of turns ;;
  structured <- try_except
      (call (CallExtract conv_text) (extract_structured E conv_text))
      (fun _ => ret ∅) ;;
  raw_triage <- try_except
      (call (CallEvaluate structured) (evaluate_triage E structured))
      (fun _ => ret FALLBACK_TRIAGE) ;;
  verified <- call (CallVerify raw_triage []) (verify E raw_triage []) ;;
  let level := default "Routine" (verified !! "level") in
  let reason := default DEFAULT_REASON (verified !! "reason") in
  let triage_info :=
    {| level := level; reason := reason;
       color := fst (present level); status := snd (present level);
       severity_flag := severity_flag |} in
  turns' <- session sid ;;
  let record :=
    {| log_session_turns := turns'; log_structured := structured;
       log_triage := triage_info; log_ts := time_ts E |} in
  call (CallLog sid record) (log_session E sid record) ;;
  ret {| success := true; response := reply; triage := triage_info;
         structured := structured |}.

(** The record the extractor gives, or the empty one when it raises; the
    verdict the evaluator gives, or the fallback when it raises. *)
Definition stage_extract (E : Env) (conv_text : string) : pydict :=
  match extract_structured E conv_text with
  | Ok structured => structured
  | Raise _ => ∅
  end.

Definition stage_evaluate (E : Env) (structured : pydict) : pydict :=
  match evaluate_triage E structured with
  | Ok raw_triage => raw_triage
  | Raise _ => FALLBACK_TRIAGE
  end.

(** [triage_info] for a verified verdict. *)
Definition display (verified : pydict) (severity_flag : bool) : triage_info :=
  {| level := default "Routine" (verified !! "level");
     reason := default DEFAULT_REASON (verified !! "reason");
     color := fst (present (default "Routine" (verified !! "level")));
     status := snd (present (default "Routine" (verified !! "level")));
     severity_flag := severity_flag |}.

(** A world with more calls recorded. *)
Definition with_calls (w : World) (cs : list Call) : World :=
  {| SESSIONS := SESSIONS w; message_logs := message_logs w;
     calls := calls w ++ cs |}.

(** The four levels. *)
Definition enumerated (level : string) : Prop :=
  level = "Emergency" \/ level = "Urgent" \/ level = "Routine" \/ level = "Normal".

End Views.

(** ** Collaborators used in the examples *)

Module Examples.
Import PyStr DoctorAgent Main.

(** Every backend call fails; the verifier passes its verdict through, as it
    does for an empty rule list. *)
Definition all_down : Env :=
  {| ollama := fun _ => OtherException "connection refused";
     extract_structured := fun _ => Raise "extractor down";
     evaluate_triage := fun _ => Raise "evaluator down";
     verify := fun v _ => Ok v;
     log_session := fun _ _ => Ok tt;
     time_int := 1700000000;
     time_ts := 1700000001 |}.

(** As [all_down], and the verifier raises too. *)
Definition verifier_down : Env :=
  {| ollama := fun _ => OtherException "connection refused";
     extract_structured := fun _ => Raise "extractor down";
     evaluate_triage := fun _ => Raise "evaluator down";
     verify := fun _ _ => Raise "verifier down";
     log_session := fun _ _ => Ok tt;
     time_int := 1700000000;
     time_ts := 1700000001 |}.

(** The model answers; the other collaborators work. *)
Definition healthy (answer : string) : Env :=
  {| ollama := fun _ => ChatResponse answer;
     extract_structured := fun _ => Ok (<["symptom" := "headache"]> ∅);
     evaluate_triage := fun _ =>
       Ok (<["level" := "Urgent"]> (<["reason" := "Severe headache."]> ∅));
     verify := fun v _ => Ok v;
     log_session := fun _ _ => Ok tt;
     time_int := 1700000000;
     time_ts := 1700000001 |}.

(** The model is out of memory. *)
Definition out_of_memory : ollama_result :=
  ResponseError "model requires more system memory than is available".

Definition hello : SimpleChatRequest :=
  {| req_message := "I have a headache"; req_session_id := Some "s1" |}.

Definition anonymous : SimpleChatRequest :=
  {| req_message := "I have a headache"; req_session_id := None |}.

(** A request with an empty message. *)
Definition silent : SimpleChatRequest :=
  {| req_message := ""; req_session_id := Some "s1" |}.

(** A request of another session. *)
Definition knee : SimpleChatRequest :=
  {| req_message := "My knee hurts"; req_session_id := Some "s2" |}.

(** The world after the first request of session "s1". *)
Definition after_hello : World := fst (chat (healthy "Rest.") hello initial).

(** Six sentences, each on a line of its own. *)
Definition six_lines : string :=
  "A." +:+ newline +:+ "B." +:+ newline +:+ "C." +:+ newline +:+
  "D." +:+ newline +:+ "E." +:+ newline +:+ "F.".

(** Six sentences with one, two or three spaces between them. *)
Definition six_sentences : list (string * nat) :=
  [("Rest well.", 0); ("Drink water!", 1); ("Any fever?", 0);
   ("Call me.", 2); ("Take care.", 0)].

(** A reply with the marker between two sentences. *)
Definition marker_inside : string := "Take rest. <END_CONVO> Goodbye.".

End Examples.

(** ** main.py: accounts and tokens *)

Module Auth.
Import PyStr DoctorAgent Main.

(** A byte that continues a character of more than one byte. *)
Definition is_continuation (a : ascii) : bool :=
  ((128 <=? code a) && (code a <=? 191))%N.

(** [s[:n]]: the first [n] characters.  A character is taken with the bytes
    that continue it. *)
Fixpoint take_chars (n : nat) (s : string) : string :=
  match s with
  | "" => ""
  | String c s' =>
    if is_continuation c then String c (take_chars n s')
    else match n with
         | O => ""
         | S n' => String c (take_chars n' s')
         end
  end.

(** [len(s)]. *)
Fixpoint char_count (s : string) : nat :=
  match s with
  | "" => 0
  | String c s' =>
    if is_continuation c then char_count s' else S (char_count s')
  end.

(** [s.split('@')[0]]: the text before the first [@]. *)
Fixpoint before_at (s : string) : string :=
  match s with
  | "" => ""
  | String c s' => if Ascii.eqb c "@" then "" else String c (before_at s')
  end.

(** The values of a token payload: [None], a text, a time.  Times and
    durations are counted in microseconds, the resolution of [datetime]
    and [timedelta]. *)
Inductive jvalue : Type :=
  | JNull
  | JStr (s : string)
  | JTime (t : Z).

(** [HTTPException(status_code=..., detail=...)]. *)
Record HTTPException : Type := {
  status_code : nat;
  detail : string
}.

(** A route returns, raises an [HTTPException], or raises [KeyError]. *)
Inductive outcome (A : Type) : Type :=
  | Returned (a : A)
  | HTTPError (e : HTTPException)
  | KeyMissing (key : string).
Arguments Returned {A} a.
Arguments HTTPError {A} e.
Arguments KeyMissing {A} key.

(** The libraries of a request: [pwd_context] and [jwt] with the key and
    the algorithm of the module, the clock, and the configured life of a
    token.  [jwt_decode] is [None] where [jwt.decode] raises [JWTError].
    The libraries and the database are taken to answer: no route handles
    a failure of theirs. *)
Record Lib : Type := {
  pwd_hash : string -> string;
  pwd_verify : string -> string -> bool;
  jwt_encode : gmap string jvalue -> string;
  jwt_decode : string -> option (gmap string jvalue);
  utcnow : Z;
  ACCESS_TOKEN_EXPIRE_MINUTES : Z
}.

(** The collection [users]: its documents in the order of insertion.  The
    [_id] the driver adds to a document is left out; nothing reads it. *)
Abbreviation collection := (list pydict).

(** [users.find_one({"email": email})]. *)
Definition find_one (users : collection) (email : string) : option pydict :=
  List.find (fun d => bool_decide (d !! "email" = Some email)) users.

(** [users.insert_one(doc)]. *)
Definition insert_one (users : collection) (doc : pydict) : collection :=
  users ++ [doc].

(** [hash_password(password)]. *)
Definition hash_password (L : Lib) (password : string) : string :=
  let truncated_password := take_chars 72 password in
  pwd_hash L truncated_password.

(** [verify_password(password, hashed)]. *)
Definition verify_password (L : Lib) (password hashed : string) : bool :=
  pwd_verify L password hashed.

(** [timedelta(minutes=m)]. *)
Definition minutes (m : Z) : Z := (m * 60000000)%Z.

(** [create_access_token(data, expires_delta=None)].  A [timedelta] of zero
    is falsy. *)
Definition create_access_token (L : Lib) (data : gmap string jvalue)
    (expires_delta : option Z) : string :=
  let to_encode := data in
  let delta :=
    match expires_delta with
    | Some d => if (d =? 0)%Z then minutes (ACCESS_TOKEN_EXPIRE_MINUTES L) else d
    | None => minutes (ACCESS_TOKEN_EXPIRE_MINUTES L)
    end in
  let expire := (utcnow L + delta)%Z in
  jwt_encode L (<["exp" := JTime expire]> to_encode).

Definition unauthorized (text : string) : HTTPException :=
  {| status_code := 401; detail := text |}.

(** [get_current_user(token)].  The exceptions raised inside the [try] are
    no [JWTError] and pass the [except]. *)
Definition get_current_user (L : Lib) (users : collection) (token : string)
    : outcome pydict :=
  match jwt_decode L token with
  | None => HTTPError (unauthorized "Invalid token")
  | Some payload =>
    match payload !! "sub" with
    | None => HTTPError (unauthorized "Invalid token")
    | Some JNull => HTTPError (unauthorized "Invalid token")
    | Some (JStr email) =>
      match find_one users email with
      | Some user => Returned user
      | None => HTTPError (unauthorized "User not found")
      end
    | Some (JTime _) => HTTPError (unauthorized "User not found")
    end
  end.

(** The models [User] and [UserRegister], and the form of [/login]. *)
Record User : Type := {
  user_email : string;
  user_password : string
}.

Record UserRegister : Type := {
  reg_name : string;
  reg_email : string;
  reg_password : string
}.

Record LoginForm : Type := {
  username : string;
  password : string
}.

(** What [/api/register] and [/api/login] return. *)
Record Session : Type := {
  ok : bool;
  token : string;
  name : string
}.

(** What [/login] returns. *)
Record Bearer : Type := {
  access_token : string;
  token_type : string
}.

Definition subject (email : string) : gmap string jvalue :=
  <["sub" := JStr email]> ∅.

(** [api_register(user)]. *)
Definition api_register (L : Lib) (user : UserRegister) (users : collection)
    : collection * outcome Session :=
  match find_one users (reg_email user) with
  | Some _ =>
    (users, HTTPError {| status_code := 400; detail := "Email already registered" |})
  | None =>
    let hashed_pw := hash_password L (reg_password user) in
    let users' :=
      insert_one users
        (<["name" := reg_name user]>
         (<["email" := reg_email user]> (<["password" := hashed_pw]> ∅))) in
    let token := create_access_token L (subject (reg_email user)) None in
    (users', Returned {| ok := true; token := token; name := reg_name user |})
  end.

(** [api_login(user)]. *)
Definition api_login (L : Lib) (user : User) (users : collection)
    : outcome Session :=
  match find_one users (user_email user) with
  | None => HTTPError (unauthorized "Invalid credentials")
  | Some db_user =>
    match db_user !! "password" with
    | None => KeyMissing "password"
    | Some hashed =>
      if negb (verify_password L (user_password user) hashed)
      then HTTPError (unauthorized "Invalid credentials")
      else
        match db_user !! "email" with
        | None => KeyMissing "email"
        | Some email =>
          let token := create_access_token L (subject email) None in
          Returned {| ok := true; token := token;
                      name := default (before_at (user_email user))
                                (db_user !! "name") |}
        end
    end
  end.

(** [register(user)]. *)
Definition register (L : Lib) (user : User) (users : collection)
    : collection * outcome string :=
  match find_one users (user_email user) with
  | Some _ =>
    (users, HTTPError {| status_code := 400; detail := "Email already registered" |})
  | None =>
    let hashed_pw := hash_password L (user_password user) in
    (insert_one users
       (<["email" := user_email user]> (<["password" := hashed_pw]> ∅)),
     Returned "User registered successfully")
  end.

(** [login(form_data)]. *)
Definition login (L : Lib) (form_data : LoginForm) (users : collection)
    : outcome Bearer :=
  match find_one users (username form_data) with
  | None => HTTPError (unauthorized "Invalid credentials")
  | Some user =>
    match user !! "password" with
    | None => KeyMissing "password"
    | Some hashed =>
      if negb (verify_password L (password form_data) hashed)
      then HTTPError (unauthorized "Invalid credentials")
      else
        match user !! "email" with
        | None => KeyMissing "email"
        | Some email =>
          Returned {| access_token := create_access_token L (subject email) None;
                      token_type := "bearer" |}
        end
    end
  end.

(** The emails of the accounts. *)
Definition emails (users : collection) : list string :=
  omap (fun d : pydict => d !! "email") users.

End Auth.

(** ** main.py: the patient simulator and the two report routes *)

Module Reports.
Import PyStr DoctorAgent Main Auth.

(** An entry of [data/vignettes.json]: a dict whose fields, where present,
    are texts, and a list of texts for the symptoms. *)
Record vignette : Type := {
  v_name : option string;
  v_chief_complaint : option string;
  v_symptoms : option (list string);
  v_history : option string
}.

(** What the file gives: it is not there, reading or parsing it raises, it
    holds something that is no list, or it holds a list of entries. *)
Inductive vignettes_file : Type :=
  | FileMissing
  | FileError (e : string)
  | NotAList
  | Vignettes (entries : list vignette).

(** The surroundings of a simulation: the path and the file, the index
    [random.choice] draws, and the text [str(e)] of an [HTTPException]. *)
Record SimEnv : Type := {
  file_path : string;
  file : vignettes_file;
  random_index : nat;
  http_str : HTTPException -> string
}.

(** The dict the simulator returns. *)
Record Simulation : Type := {
  patient_name : string;
  message_history : list pydict;
  doctor_reply_text : string
}.

Definition server_error (text : string) : HTTPException :=
  {| status_code := 500; detail := text |}.

(** What the body of the [try] raises: an [HTTPException], or another
    exception with its text. *)
Inductive raised : Type :=
  | RaisedHTTP (e : HTTPException)
  | RaisedOther (text : string).

(** The body of the [try] of [simulate_patient_chat], up to the choice of
    the patient. *)
Definition choose_patient (S : SimEnv) : raised + vignette :=
  match file S with
  | FileMissing => inl (RaisedHTTP (server_error ("File not found: " +:+ file_path S)))
  | FileError e => inl (RaisedOther e)
  | NotAList => inl (RaisedHTTP (server_error "Invalid or empty JSON data"))
  | Vignettes [] => inl (RaisedHTTP (server_error "Invalid or empty JSON data"))
  | Vignettes (first :: rest) =>
    inr (nth (random_index S mod length (first :: rest)) (first :: rest) first)
  end.

(** [simulate_patient_chat()].  Every exception of the body, an
    [HTTPException] included, is raised again as a 500 with its text. *)
Definition simulate_patient_chat (S : SimEnv) (w : World)
    : World * outcome Simulation :=
  match choose_patient S with
  | inr patient =>
    let name := default "Unknown" (v_name patient) in
    let complaint := default "No complaint provided" (v_chief_complaint patient) in
    let symptoms := join ", " (default [] (v_symptoms patient)) in
    let history := default "No history provided" (v_history patient) in
    let message_history :=
      [log_message "patient" complaint;
       log_message "doctor"
         ("Can you describe your " +:+ symptoms +:+ " in a bit more detail?")] in
    let doctor_response :=
      "Based on your history (" +:+ history
      +:+ "), it seems mild. Please rest and monitor your condition." in
    ({| SESSIONS := SESSIONS w;
        message_logs := message_history ++ [log_message "doctor" doctor_response];
        calls := calls w |},
     Returned {| patient_name := name; message_history := message_history;
                 doctor_reply_text := doctor_response |})
  | inl (RaisedHTTP e) => (w, HTTPError (server_error (http_str S e)))
  | inl (RaisedOther e) => (w, HTTPError (server_error e))
  end.

(** The document a report route stores. *)
Record report_doc : Type := {
  doc_user_email : string;
  doc_timestamp : Z;
  doc_text : string;
  doc_conversation : list pydict
}.

(** The dict a report route returns: the key of the text, the text, and
    the message that goes with ["saved": True]. *)
Record Report : Type := {
  report_key : string;
  report_text : string;
  report_saved : option string
}.

(** The collaborators of the report routes: the two agents (a failure of
    their import is a failure of the call), the two inserts, the clock. *)
Record ReportEnv : Type := {
  generate_summary : list pydict -> result string;
  generate_differential_diagnosis : list pydict -> result string;
  insert_summary : report_doc -> result unit;
  insert_diagnosis : report_doc -> result unit;
  report_utcnow : Z
}.

(** The calls a report route makes. *)
Inductive ReportCall : Type :=
  | CallSummaryAgent (conversation : list pydict)
  | CallSummaryInsert (doc : report_doc)
  | CallDiagnosisAgent (conversation : list pydict)
  | CallDiagnosisInsert (doc : report_doc).

(** [generate_summary_api(current_user)]. *)
Definition generate_summary_api (R : ReportEnv) (current_user : pydict) (w : World)
    : list ReportCall * outcome Report :=
  if (length (message_logs w) <? 2)%nat then
    ([], Returned {| report_key := "summary";
                     report_text := "No conversation found yet.";
                     report_saved := None |})
  else
    match generate_summary R (message_logs w) with
    | Raise e => ([CallSummaryAgent (message_logs w)], HTTPError (server_error e))
    | Ok summary_text =>
      match current_user !! "email" with
      | None => ([CallSummaryAgent (message_logs w)], HTTPError (server_error "'email'"))
      | Some email =>
        let summary_doc :=
          {| doc_user_email := email; doc_timestamp := report_utcnow R;
             doc_text := summary_text; doc_conversation := message_logs w |} in
        match insert_summary R summary_doc with
        | Raise e =>
          ([CallSummaryAgent (message_logs w); CallSummaryInsert summary_doc],
           HTTPError (server_error e))
        | Ok _ =>
          ([CallSummaryAgent (message_logs w); CallSummaryInsert summary_doc],
           Returned {| report_key := "summary"; report_text := summary_text;
                       report_saved := Some "✅ Summary saved successfully." |})
        end
      end
    end.

(** [generate_differential_diagnosis_api(current_user)]. *)
Definition generate_differential_diagnosis_api (R : ReportEnv)
    (current_user : pydict) (w : World) : list ReportCall * outcome Report :=
  if (length (message_logs w) <? 2)%nat then
    ([], Returned {| report_key := "diagnosis";
                     report_text := "⚠ Please have a conversation first before generating diagnosis.";
                     report_saved := None |})
  else
    match generate_differential_diagnosis R (message_logs w) with
    | Raise e => ([CallDiagnosisAgent (message_logs w)], HTTPError (server_error e))
    | Ok diagnosis_text =>
      match current_user !! "email" with
      | None => ([CallDiagnosisAgent (message_logs w)], HTTPError (server_error "'email'"))
      | Some email =>
        let diagnosis_doc :=
          {| doc_user_email := email; doc_timestamp := report_utcnow R;
             doc_text := diagnosis_text; doc_conversation := message_logs w |} in
        match insert_diagnosis R diagnosis_doc with
        | Raise e =>
          ([CallDiagnosisAgent (message_logs w); CallDiagnosisInsert diagnosis_doc],
           HTTPError (server_error e))
        | Ok _ =>
          ([CallDiagnosisAgent (message_logs w); CallDiagnosisInsert diagnosis_doc],
           Returned {| report_key := "diagnosis"; report_text := diagnosis_text;
                       report_saved :=
                         Some "✅ Top 5 differential diagnoses generated successfully." |})
        end
      end
    end.

End Reports.

(** ** Histories: what a process that serves requests can hold *)

Module Histories.
Import PyStr DoctorAgent Main Views Auth Reports.

(** The two turns of a request, from its message and its reply, and the two
    messages it logs. *)
Definition exchange (p : string * string) : list pydict :=
  [message "user" (fst p); message "assistant" (snd p)].

Definition logged (p : string * string) : list pydict :=
  [log_message "patient" (fst p); log_message "doctor" (snd p)].

(** A turn list made of exchanges. *)
Definition dialogue (turns : list pydict) : Prop :=
  exists ps : list (string * string), turns = concat (map exchange ps).

(** The worlds a process reaches from its start by chat requests and
    simulations. *)
Inductive reachable : World -> Prop :=
  | reach_initial : reachable initial
  | reach_chat (E : Env) (req : SimpleChatRequest) (w : World) :
      reachable w -> reachable (fst (chat E req w))
  | reach_simulate (S : SimEnv) (w : World) :
      reachable w -> reachable (fst (simulate_patient_chat S w)).

(** A message with a speaker's role and a text that is not empty. *)
Definition spoken (m : pydict) : Prop :=
  exists r c, m = message r c /\ (r = "user" \/ r = "assistant") /\ c <> "".

(** The entry of the message log for a stored turn. *)
Definition log_entry (p : string * string) : pydict :=
  log_message (if String.eqb (fst p) "user" then "patient" else "doctor") (snd p).

(** The request without a session id. *)
Definition anonymous_request (req : SimpleChatRequest) : Prop :=
  req_session_id req = None \/ req_session_id req = Some "".

(** The collections of accounts a process reaches from the empty one by
    registrations, each run from its lookup to its insert before the
    next starts. *)
Inductive registrations : collection -> Prop :=
  | registrations_none : registrations []
  | registrations_api (L : Lib) (user : UserRegister) (users : collection) :
      registrations users -> registrations (fst (api_register L user users))
  | registrations_legacy (L : Lib) (user : User) (users : collection) :
      registrations users -> registrations (fst (register L user users)).

(** The documents the two registration routes insert. *)
Definition api_register_doc (L : Lib) (user : UserRegister) : pydict :=
  <["name" := reg_name user]>
    (<["email" := reg_email user]>
       (<["password" := hash_password L (reg_password user)]> ∅)).

Definition register_doc (L : Lib) (user : User) : pydict :=
  <["email" := user_email user]>
    (<["password" := hash_password L (user_password user)]> ∅).

(** Two registrations that overlap: a registration looks its email up in
    one [await] and inserts its document in another, and here both
    lookups are answered before either insert is made.  [email] and
    [doc] are of the first registration, [email'] and [doc'] of the
    second; the collection has no unique index. *)
Definition overlapped (users : collection) (email email' : string)
    (doc doc' : pydict) : collection :=
  match find_one users email, find_one users email' with
  | None, None => insert_one (insert_one users doc) doc'
  | None, Some _ => insert_one users doc
  | Some _, None => insert_one users doc'
  | Some _, Some _ => users
  end.

(** The calls to the session log among the calls. *)
Fixpoint log_calls (cs : list Call) : list (string * log_record) :=
  match cs with
  | [] => []
  | CallLog sid record :: cs' => (sid, record) :: log_calls cs'
  | _ :: cs' => log_calls cs'
  end.

End Histories.

(** ** Libraries and accounts used in the examples *)

Module MoreExamples.
Import PyStr DoctorAgent Main Auth Reports.

(** A library whose hash and token are readable: the hash of a password
    is the password after ["h:"], the token of a payload is its subject
    after ["token:"], and only the token of ["ann@example.org"] decodes. *)
Definition demo_lib : Lib :=
  {| pwd_hash := fun p => "h:" +:+ p;
     pwd_verify := fun p h => String.eqb h ("h:" +:+ p);
     jwt_encode := fun payload =>
       match payload !! "sub" with
       | Some (JStr e) => "token:" +:+ e
       | _ => "token"
       end;
     jwt_decode := fun t =>
       if String.eqb t "token:ann@example.org"
       then Some (<["sub" := JStr "ann@example.org"]> ∅)
       else None;
     utcnow := 1000;
     ACCESS_TOKEN_EXPIRE_MINUTES := 60 |}.

(** A library whose token is the subject itself. *)
Definition plain_lib : Lib :=
  {| pwd_hash := fun p => "h:" +:+ p;
     pwd_verify := fun p h => String.eqb h ("h:" +:+ p);
     jwt_encode := fun payload =>
       match payload !! "sub" with
       | Some (JStr e) => e
       | _ => ""
       end;
     jwt_decode := fun t => Some (<["sub" := JStr t]> ∅);
     utcnow := 1000;
     ACCESS_TOKEN_EXPIRE_MINUTES := 60 |}.

Definition ann : UserRegister :=
  {| reg_name := "Ann"; reg_email := "ann@example.org"; reg_password := "s3cret" |}.

Definition ann_login : User :=
  {| user_email := "ann@example.org"; user_password := "s3cret" |}.

Definition bob : User :=
  {| user_email := "bob@example.org"; user_password := "pa55" |}.

Definition bob_form : LoginForm :=
  {| username := "bob@example.org"; password := "pa55" |}.




End MoreExamples.

Import PyStr DoctorAgent Sentences Main Views Examples.

(** * Facts about strings *)

#[local] Arguments String.append !_ _ / : simpl nomatch.

Section StringFacts.

Lemma sapp_nil_r (s : string) : s +:+ "" = s.
Proof. induction s as [|c s IH]; simpl; [reflexivity | now rewrite IH]. Qed.

Lemma sapp_assoc (s t u : string) : (s +:+ t) +:+ u = s +:+ (t +:+ u).
Proof. induction s as [|c s IH]; simpl; [reflexivity | now rewrite IH]. Qed.

Lemma sapp_length (s t : string) :
  String.length (s +:+ t) = String.length s + String.length t.
Proof. induction s as [|c s IH]; simpl; [reflexivity | now rewrite IH]. Qed.

Lemma srev_app (s t : string) : srev (s +:+ t) = srev t +:+ srev s.
Proof.
  induction s as [|c s IH]; simpl.
  - now rewrite sapp_nil_r.
  - now rewrite IH, sapp_assoc.
Qed.

Lemma srev_involutive (s : string) : srev (srev s) = s.
Proof.
  induction s as [|c s IH]; simpl; [reflexivity |].
  now rewrite srev_app, IH.
Qed.

Lemma srev_nil (s : string) : srev s = "" -> s = "".
Proof. intros H. rewrite <- (srev_involutive s), H. reflexivity. Qed.

(** [String.prefix p s] says that [s] is [p] followed by something. *)
Lemma prefix_app (p s : string) :
  String.prefix p s = true <-> exists b, s = p +:+ b.
Proof.
  revert s. induction p as [|c p IH]; intros s; simpl.
  - destruct s; split; eauto.
  - destruct s as [|d s]; simpl.
    + split; [discriminate | intros [b Hb]; discriminate].
    + destruct (ascii_dec c d) as [->|Hne].
      * rewrite IH. split; intros [b Hb]; exists b; congruence.
      * split; [discriminate | intros [b Hb]; congruence].
Qed.

Lemma contains_occurs (t s : string) : contains t s = true <-> occurs t s.
Proof.
  unfold occurs. induction s as [|c s IH].
  - cbn [contains]. rewrite orb_false_r, prefix_app. split.
    + intros [b Hb]. exists "", b. exact Hb.
    + intros [a [b Hab]]. destruct a; [eauto | discriminate].
  - cbn [contains]. rewrite orb_true_iff, prefix_app, IH. split.
    + intros [[b Hb] | [a [b Hab]]].
      * exists "", b. exact Hb.
      * exists (String c a), b. simpl. now rewrite Hab.
    + intros [a [b Hab]]. destruct a as [|d a].
      * left. exists b. exact Hab.
      * right. exists a, b. simpl in Hab. congruence.
Qed.

End StringFacts.

(** * Facts about [strip] *)

Section StripFacts.
Variable w1 : ascii -> bool.
Variable w2 : ascii -> ascii -> bool.
Variable w3 : ascii -> ascii -> ascii -> bool.

Lemma strip_front_eq (a : ascii) (s1 : string) :
  strip_front w1 w2 w3 (String a s1) =
  if w1 a then strip_front w1 w2 w3 s1
  else match s1 with
       | "" => String a s1
       | String b s2 =>
         if w2 a b then strip_front w1 w2 w3 s2
         else match s2 with
              | "" => String a s1
              | String c s3 => if w3 a b c then strip_front w1 w2 w3 s3 else String a s1
              end
       end.
Proof. destruct s1 as [|b [|c s3]]; reflexivity. Qed.

(** What is left after stripping does not begin with whitespace, and is the
    end of the text. *)
Lemma strip_front_spec (n : nat) (s : string) :
  String.length s <= n ->
  ws_head w1 w2 w3 (strip_front w1 w2 w3 s) = false /\ exists z, s = z +:+ strip_front w1 w2 w3 s.
Proof.
  revert s. induction n as [|n IH]; intros s Hn.
  - destruct s; [|simpl in Hn; lia]. split; [reflexivity | now exists ""].
  - destruct s as [|a s1]; [split; [reflexivity | now exists ""]|].
    rewrite strip_front_eq. simpl in Hn.
    destruct (w1 a) eqn:E1.
    { destruct (IH s1) as [H [z Hz]]; [lia|]. split; [exact H|].
      exists (String a z). simpl. now rewrite <- Hz. }
    destruct s1 as [|b s2].
    { split; [simpl; exact E1 | now exists ""]. }
    simpl in Hn. destruct (w2 a b) eqn:E2.
    { destruct (IH s2) as [H [z Hz]]; [lia|]. split; [exact H|].
      exists (String a (String b z)). simpl. now rewrite <- Hz. }
    destruct s2 as [|c s3].
    { split; [simpl; now rewrite E1, E2 | now exists ""]. }
    simpl in Hn. destruct (w3 a b c) eqn:E3.
    { destruct (IH s3) as [H [z Hz]]; [lia|]. split; [exact H|].
      exists (String a (String b (String c z))). simpl. now rewrite <- Hz. }
    split; [simpl; now rewrite E1, E2, E3 | now exists ""].
Qed.

Lemma strip_front_head (s : string) : ws_head w1 w2 w3 (strip_front w1 w2 w3 s) = false.
Proof. exact (proj1 (strip_front_spec (String.length s) s (Nat.le_refl _))). Qed.

Lemma strip_front_suffix (s : string) : exists z, s = z +:+ strip_front w1 w2 w3 s.
Proof. exact (proj2 (strip_front_spec (String.length s) s (Nat.le_refl _))). Qed.

(** A text that does not begin with whitespace is left as it is. *)
Lemma strip_front_fixed (s : string) : ws_head w1 w2 w3 s = false -> strip_front w1 w2 w3 s = s.
Proof.
  destruct s as [|a [|b [|c s3]]]; simpl; intros H; [reflexivity|..];
    repeat (apply orb_false_elim in H; destruct H as [H ?]);
    repeat match goal with E : _ = false |- _ => rewrite E; clear E end;
    reflexivity.
Qed.

Lemma ws_head_prefix (p z : string) : ws_head w1 w2 w3 (p +:+ z) = false -> ws_head w1 w2 w3 p = false.
Proof.
  destruct p as [|a [|b [|c p]]]; [reflexivity|..].
  - destruct z as [|b [|c z]]; simpl; intros H;
      repeat (apply orb_false_elim in H; destruct H as [H ?]); assumption.
  - destruct z as [|c z]; simpl; intros H; [assumption|].
    apply orb_false_elim in H. tauto.
  - simpl. tauto.
Qed.

(** A first character that starts no whitespace character. *)
Lemma ws_head_inert (a : ascii) (s : string) :
  w1 a = false -> (forall b, w2 a b = false) -> (forall b c, w3 a b c = false) ->
  ws_head w1 w2 w3 (String a s) = false.
Proof.
  intros H1 H2 H3. destruct s as [|b [|c s]]; simpl; now rewrite ?H1, ?H2, ?H3.
Qed.

Hypothesis w2_space : forall a, w2 a " " = false.
Hypothesis w3_space_mid : forall a c, w3 a " " c = false.
Hypothesis w3_space_end : forall a b, w3 a b " " = false.

(** The start of a text stays free of whitespace when what follows its
    first piece is replaced by a space and anything else. *)
Lemma ws_head_rejoin (p z r : string) :
  p <> "" -> ws_head w1 w2 w3 (p +:+ z) = false -> ws_head w1 w2 w3 (p +:+ String " " r) = false.
Proof.
  intros Hp H. destruct p as [|a [|b [|c p]]]; [congruence|..].
  - assert (H1 : w1 a = false).
    { apply (ws_head_prefix (String a "") z) in H. exact H. }
    destruct r as [|d r]; simpl; now rewrite H1, ?w2_space, ?w3_space_mid.
  - apply (ws_head_prefix (String a (String b "")) z) in H. simpl in H.
    simpl. now rewrite H, w3_space_end.
  - exact H.
Qed.

End StripFacts.

Lemma ws2_space (a : ascii) : ws2 a " " = false.
Proof. unfold ws2. now rewrite andb_false_r. Qed.

Lemma ws3_space_mid (a c : ascii) : ws3 a " " c = false.
Proof.
  unfold ws3. cbn [code N_of_ascii]. simpl N.eqb.
  now rewrite !andb_false_r, !andb_false_l.
Qed.

Lemma ws3_space_end (a b : ascii) : ws3 a b " " = false.
Proof.
  unfold ws3. simpl. now rewrite !andb_false_r.
Qed.

Lemma ws2r_space (a : ascii) : ws2r a " " = false.
Proof. reflexivity. Qed.

Lemma ws3r_space_mid (a c : ascii) : ws3r a " " c = false.
Proof. unfold ws3r. apply ws3_space_mid. Qed.

Lemma ws3r_space_end (a b : ascii) : ws3r a b " " = false.
Proof. reflexivity. Qed.

Lemma strip_head (s : string) : ws_head ws1 ws2 ws3 (strip s) = false.
Proof.
  unfold strip, rstrip.
  destruct (strip_front_suffix ws1 ws2r ws3r (srev (lstrip s))) as [z Hz].
  apply (f_equal srev) in Hz. rewrite srev_involutive, srev_app in Hz.
  apply (ws_head_prefix _ _ _ _ (srev z)). rewrite <- Hz.
  apply strip_front_head.
Qed.

Lemma strip_tail (s : string) : ws_head ws1 ws2r ws3r (srev (strip s)) = false.
Proof.
  unfold strip, rstrip. rewrite srev_involutive. apply strip_front_head.
Qed.

(** A text with no whitespace at either end is left as it is. *)
Lemma strip_fixed (t : string) :
  ws_head ws1 ws2 ws3 t = false ->
  ws_head ws1 ws2r ws3r (srev t) = false ->
  strip t = t.
Proof.
  intros H1 H2. unfold strip, lstrip, rstrip.
  rewrite (strip_front_fixed _ _ _ t H1), (strip_front_fixed _ _ _ _ H2).
  apply srev_involutive.
Qed.

Lemma strip_idempotent (s : string) : strip (strip s) = strip s.
Proof. apply strip_fixed; [apply strip_head | apply strip_tail]. Qed.

(** * Facts about the sentence pattern *)

Section SplitFacts.

Lemma is_space_eq (c : ascii) : is_space c = true -> c = " "%char.
Proof. apply Ascii.eqb_eq. Qed.

Lemma is_terminal_cases (c : ascii) :
  is_terminal c = true -> c = "."%char \/ c = "!"%char \/ c = "?"%char.
Proof.
  unfold is_terminal. rewrite !orb_true_iff, !Ascii.eqb_eq. tauto.
Qed.

Lemma split_nonempty (st : scan) (s : string) : re_split_from st s <> [].
Proof.
  revert st. induction s as [|c s IH]; intros st; simpl; [discriminate|].
  destruct (is_space c); [destruct st|]; try apply IH; try discriminate;
    match goal with |- push _ ?l <> _ => destruct l; discriminate end.
Qed.

Lemma pushs_nil (ps : list string) : ps <> [] -> pushs "" ps = ps.
Proof. destruct ps; [congruence | reflexivity]. Qed.

Lemma push_pushs (c : ascii) (p : string) (ps : list string) :
  ps <> [] -> push c (pushs p ps) = pushs (String c p) ps.
Proof. destruct ps; [congruence | reflexivity]. Qed.

Lemma next_not_boundary (st : scan) (c : ascii) :
  boundary st c = false ->
  next st c = if is_space c then AfterOther
              else if is_terminal c then AfterTerminal else AfterOther.
Proof.
  unfold boundary, next. destruct (is_space c), st; simpl; congruence.
Qed.

(** A solid text goes whole into the sentence being read. *)
Lemma split_app_solid (p r : string) (st : scan) :
  solid st p = true ->
  re_split_from st (p +:+ r) = pushs p (re_split_from (run st p) r).
Proof.
  revert st. induction p as [|c p IH]; intros st H.
  - simpl. symmetry. apply pushs_nil, split_nonempty.
  - simpl in H. apply andb_true_iff in H as [Hb Hs].
    apply negb_true_iff in Hb.
    rewrite <- push_pushs by apply split_nonempty.
    simpl. rewrite (next_not_boundary _ _ Hb) in *.
    unfold boundary in Hb.
    destruct (is_space c), st; simpl in Hb; try discriminate;
      now rewrite (IH _ Hs).
Qed.

Lemma split_solid (p : string) (st : scan) :
  solid st p = true -> re_split_from st p = [p].
Proof.
  intros H. rewrite <- (sapp_nil_r p) at 1.
  rewrite (split_app_solid _ _ _ H). simpl. now rewrite sapp_nil_r.
Qed.

Lemma split_gap (k : nat) (r : string) :
  re_split_from InGap (spaces k +:+ r) = re_split_from InGap r.
Proof. induction k as [|k IH]; simpl; [reflexivity | exact IH]. Qed.

(** A closed sentence followed by spaces is one string of the result. *)
Lemma split_closed (p r : string) (g : nat) (st : scan) :
  closed st p = true ->
  re_split_from st (p +:+ spaces (S g) +:+ r) = p :: re_split_from InGap r.
Proof.
  unfold closed. intros H. apply andb_true_iff in H as [Hs Ht].
  rewrite (split_app_solid _ _ _ Hs).
  destruct (run st p); try discriminate.
  simpl. now rewrite split_gap, sapp_nil_r.
Qed.

Lemma chain_cons (st : scan) (p : string) (ps : list string) :
  ps <> [] -> chain st (p :: ps) = closed st p && chain InGap ps.
Proof. destruct ps; [congruence | reflexivity]. Qed.

Lemma chain_nonempty (st : scan) (ps : list string) : chain st ps = true -> ps <> [].
Proof. destruct ps; [discriminate | discriminate]. Qed.

(** Splitting sentences that were glued with spaces gives the sentences. *)
Lemma split_glue (l : list (string * nat)) (last : string) (st : scan) :
  chain st (map fst l ++ [last]) = true ->
  re_split_from st (glue l last) = map fst l ++ [last].
Proof.
  revert st. induction l as [|[p g] l IH]; intros st H.
  - simpl in *. now apply split_solid.
  - cbn [map fst app] in *. rewrite chain_cons in H by (destruct (map fst l); discriminate).
    apply andb_true_iff in H as [Hc Hr].
    cbn [glue]. rewrite (split_closed _ _ _ _ Hc). f_equal. now apply IH.
Qed.

(** Splitting sentences that were joined with one space gives them back. *)
Lemma split_join (ps : list string) (st : scan) :
  chain st ps = true -> re_split_from st (join " " ps) = ps.
Proof.
  revert st. induction ps as [|p ps IH]; intros st H; [discriminate|].
  destruct ps as [|q qs].
  - simpl in *. now apply split_solid.
  - rewrite chain_cons in H by discriminate.
    apply andb_true_iff in H as [Hc Hr].
    change (join " " (p :: q :: qs)) with (p +:+ spaces 1 +:+ join " " (q :: qs)).
    rewrite (split_closed _ _ _ _ Hc). f_equal. now apply IH.
Qed.

Lemma chain_push (st : scan) (c : ascii) (ps : list string) :
  boundary st c = false -> chain (next st c) ps = true ->
  chain st (push c ps) = true.
Proof.
  intros Hb H. destruct ps as [|p [|q qs]]; [discriminate|..].
  - simpl in *. now rewrite Hb, H.
  - rewrite chain_cons in H by discriminate.
    cbn [push]. rewrite chain_cons by discriminate.
    apply andb_true_iff in H as [Hc Hr]. rewrite Hr, andb_true_r.
    unfold closed in *. simpl. now rewrite Hb.
Qed.

(** What the pattern splits a text into is a list of sentences. *)
Lemma split_chain (s : string) (st : scan) : chain st (re_split_from st s) = true.
Proof.
  revert st. induction s as [|c s IH]; intros st; [reflexivity|].
  simpl. destruct (is_space c) eqn:Hc.
  - destruct st.
    + apply chain_push; [unfold boundary; now rewrite Hc|].
      unfold next. rewrite Hc. apply IH.
    + rewrite chain_cons by apply split_nonempty. apply IH.
    + apply IH.
  - apply chain_push; [unfold boundary; now rewrite Hc|].
    unfold next. rewrite Hc. apply IH.
Qed.

Lemma chain_solid_head (st : scan) (p : string) (ps : list string) :
  chain st (p :: ps) = true -> solid st p = true.
Proof.
  destruct ps; [exact (fun H => H)|]. rewrite chain_cons by discriminate.
  unfold closed. intros H. apply andb_true_iff in H as [H _].
  now apply andb_true_iff in H as [H _].
Qed.

(** The first sentences of a list of sentences are a list of sentences. *)
Lemma chain_take (ps : list string) (n : nat) (st : scan) :
  chain st ps = true -> chain st (take (S n) ps) = true.
Proof.
  revert n st. induction ps as [|p ps IH]; intros n st H; [discriminate|].
  destruct ps as [|q qs]; [destruct n; exact H|].
  destruct n as [|n].
  - simpl. now apply chain_solid_head in H.
  - rewrite chain_cons in H by discriminate.
    apply andb_true_iff in H as [Hc Hr].
    change (take (S (S n)) (p :: q :: qs)) with (p :: take (S n) (q :: qs)).
    rewrite chain_cons by discriminate. rewrite Hc. now apply IH.
Qed.

End SplitFacts.

(** * The first and the last sentence of a text *)

Section Pieces.

(** The first sentence is the start of the text, and is empty only for the
    empty text. *)
Lemma first_piece (s : string) (st : scan) :
  st <> InGap ->
  exists p qs z, re_split_from st s = p :: qs /\ s = p +:+ z
                 /\ (st = AfterOther -> s <> "" -> p <> "").
Proof.
  revert st. induction s as [|c s IH]; intros st Hst.
  - exists "", [], "". repeat split; congruence.
  - assert (Hpush : forall st', st' <> InGap ->
      exists p qs z, push c (re_split_from st' s) = p :: qs
                     /\ String c s = p +:+ z /\ p <> "").
    { intros st' Hst'. destruct (IH st' Hst') as (p & qs & z & Hp & Hz & _).
      exists (String c p), qs, z. rewrite Hp. simpl. rewrite <- Hz.
      repeat split; congruence. }
    simpl. destruct (is_space c); [destruct st|].
    + destruct (Hpush AfterOther) as (p & qs & z & ? & ? & ?); [congruence|].
      exists p, qs, z. tauto.
    + exists "", (re_split_from InGap s), (String c s).
      repeat split; congruence.
    + congruence.
    + destruct (Hpush (if is_terminal c then AfterTerminal else AfterOther))
        as (p & qs & z & ? & ? & ?); [destruct (is_terminal c); congruence|].
      exists p, qs, z. tauto.
Qed.

(** The last sentence is the end of the text; when it is not the only one, a
    space stands before it. *)
Lemma last_piece (s : string) (st : scan) (qs : list string) (pl : string) :
  re_split_from st s = qs ++ [pl] ->
  (qs <> [] -> exists x, s = x +:+ String " " pl)
  /\ (qs = [] -> st <> InGap -> s = pl)
  /\ (s = pl \/ exists x, s = x +:+ String " " pl).
Proof.
  revert st qs pl. induction s as [|c s IH]; intros st qs pl H.
  - simpl in H. destruct qs as [|q qs].
    + injection H as <-. repeat split; auto; congruence.
    + destruct qs; discriminate.
  - assert (Hpush : forall st', st' <> InGap ->
      push c (re_split_from st' s) = qs ++ [pl] ->
      (qs <> [] -> exists x, String c s = x +:+ String " " pl)
      /\ (qs = [] -> String c s = pl)).
    { intros st' Hst' Hp.
      destruct (re_split_from st' s) as [|p X] eqn:HX;
        [now apply split_nonempty in HX|].
      destruct (exists_last (l := p :: X)) as (ini & lst & Hini); [discriminate|].
      rewrite Hini in HX.
      destruct (IH _ _ _ HX) as (I1 & I2 & _).
      destruct ini as [|p' ini].
      - injection Hini as -> ->. simpl in Hp.
        destruct qs as [|q qs]; [|destruct qs; discriminate].
        injection Hp as <-. split; [congruence|]. intros _.
        now rewrite (I2 eq_refl Hst').
      - injection Hini as <- ->. simpl in Hp.
        change (String c p :: ini ++ [lst]) with ((String c p :: ini) ++ [lst]) in Hp.
        apply app_inj_tail in Hp as [<- <-]. split; [|discriminate]. intros _.
        destruct I1 as [x Hx]; [discriminate|].
        exists (String c x). simpl. now rewrite Hx. }
    simpl in H. destruct (is_space c) eqn:Hc; [destruct st|].
    + destruct (Hpush AfterOther) as [P1 P2]; [congruence | exact H |].
      split; [exact P1|]. split; [intros Hq _; now apply P2|].
      destruct qs; [left; now apply P2 | right; apply P1; discriminate].
    + apply is_space_eq in Hc. subst c.
      destruct qs as [|q qs].
      { injection H as _ HX. now apply split_nonempty in HX. }
      injection H as <- HX. destruct (IH _ _ _ HX) as (I1 & _ & I3).
      assert (Hx : exists x, String " " s = x +:+ String " " pl).
      { destruct I3 as [-> | [x ->]]; [now exists "" | now exists (String " " x)]. }
      repeat split; auto; discriminate.
    + apply is_space_eq in Hc. subst c.
      destruct (IH _ _ _ H) as (I1 & _ & I3).
      assert (Hx : exists x, String " " s = x +:+ String " " pl).
      { destruct I3 as [-> | [x ->]]; [now exists "" | now exists (String " " x)]. }
      repeat split; auto. congruence.
    + destruct (Hpush (if is_terminal c then AfterTerminal else AfterOther))
        as [P1 P2]; [destruct (is_terminal c); congruence | exact H |].
      split; [exact P1|]. split; [intros Hq _; now apply P2|].
      destruct qs; [left; now apply P2 | right; apply P1; discriminate].
Qed.

(** A text that leaves the scanner after a terminal ends with one. *)
Lemma run_terminal (p : string) (st : scan) :
  p <> "" -> run st p = AfterTerminal ->
  exists y c, p = y +:+ String c "" /\ is_terminal c = true.
Proof.
  revert st. induction p as [|c p IH]; intros st Hp H; [congruence|].
  destruct p as [|d p].
  - exists "", c. split; [reflexivity|]. simpl in H. unfold next in H.
    destruct (is_space c), st, (is_terminal c); congruence.
  - destruct (IH (next st c)) as (y & e & Hy & He); [discriminate | exact H |].
    exists (String c y), e. split; [simpl; now rewrite <- Hy | exact He].
Qed.

Lemma closed_ends (p : string) (st : scan) :
  st <> AfterTerminal -> closed st p = true ->
  exists y c, p = y +:+ String c "" /\ is_terminal c = true.
Proof.
  unfold closed. intros Hst H. apply andb_true_iff in H as [_ H].
  destruct (run st p) eqn:Hr; try discriminate.
  apply (run_terminal p st); [|exact Hr].
  intros ->. simpl in Hr. congruence.
Qed.

(** A sentence of a list that is not its last one ends with a terminal. *)
Lemma chain_inner_closed (qs more : list string) (pl : string) (st : scan) :
  st <> AfterTerminal -> more <> [] ->
  chain st (qs ++ pl :: more) = true ->
  exists y c, pl = y +:+ String c "" /\ is_terminal c = true.
Proof.
  revert st. induction qs as [|q qs IH]; intros st Hst Hm H.
  - simpl app in H. rewrite chain_cons in H by exact Hm.
    apply andb_true_iff in H as [H _]. now apply (closed_ends pl st).
  - cbn [app] in H. rewrite chain_cons in H by (destruct qs; discriminate).
    apply andb_true_iff in H as [_ H]. apply (IH InGap); [congruence | exact Hm | exact H].
Qed.

(** The last of the first sentences kept is the last sentence of all, or a
    sentence with more after it. *)
Lemma take_last (ps : list string) (n : nat) :
  ps <> [] ->
  exists qs pl, take (S n) ps = qs ++ [pl]
    /\ (ps = qs ++ [pl] \/ exists more, more <> [] /\ ps = qs ++ pl :: more).
Proof.
  revert n. induction ps as [|p ps IH]; intros n Hp; [congruence|].
  destruct ps as [|q ps'].
  - exists [], p. split; [now destruct n | now left].
  - destruct n as [|n].
    + exists [], p. split; [reflexivity|]. right. exists (q :: ps'). split; [discriminate | reflexivity].
    + destruct (IH n) as (qs & pl & Ht & Hps); [discriminate|].
      exists (p :: qs), pl. split.
      * change (take (S (S n)) (p :: q :: ps')) with (p :: take (S n) (q :: ps')).
        now rewrite Ht.
      * destruct Hps as [-> | (more & Hm & ->)]; [now left|].
        right. exists more. split; [exact Hm | reflexivity].
Qed.

Lemma join_last (qs : list string) (pl : string) :
  qs <> [] -> exists y, join " " (qs ++ [pl]) = y +:+ String " " pl.
Proof.
  induction qs as [|q qs IH]; [congruence|]. intros _.
  destruct qs as [|q' qs]; [now exists q|].
  change (join " " ((q :: q' :: qs) ++ [pl]))
    with (q +:+ " " +:+ join " " ((q' :: qs) ++ [pl])).
  destruct IH as [y H]; [discriminate|]. rewrite H.
  exists (q +:+ " " +:+ y). now rewrite !sapp_assoc.
Qed.

Lemma terminal_inert (c : ascii) :
  is_terminal c = true ->
  ws1 c = false /\ (forall b, ws2r c b = false) /\ (forall b d, ws3r c b d = false).
Proof.
  intros H. unfold ws2r, ws3r, ws2, ws3.
  destruct (is_terminal_cases c H) as [-> | [-> | ->]];
    (split; [reflexivity|]; split; intros; simpl; now rewrite !andb_false_r).
Qed.

Lemma ws_head_space (w2 : ascii -> ascii -> bool)
    (w3 : ascii -> ascii -> ascii -> bool) (s : string) :
  ws_head ws1 w2 w3 (String " " s) = true.
Proof. destruct s as [|b [|c s]]; reflexivity. Qed.

End Pieces.

(** * The cut text *)

Section Shorten.

(** The sentences kept from a stripped text, joined, have no whitespace at
    either end. *)
Lemma join_take_stripped (s : string) (n : nat) :
  ws_head ws1 ws2 ws3 s = false ->
  ws_head ws1 ws2r ws3r (srev s) = false ->
  strip (join " " (take (S n) (re_split s))) = join " " (take (S n) (re_split s)).
Proof.
  intros Hhead Htail. apply strip_fixed.
  - destruct (first_piece s AfterOther) as (p & qs & z & Hp & Hz & Hne); [congruence|].
    unfold re_split. rewrite Hp. cbn [take].
    destruct (take n qs) as [|q qs'] eqn:Hq.
    + apply (ws_head_prefix _ _ _ p z). now rewrite <- Hz.
    + change (join " " (p :: q :: qs')) with (p +:+ String " " (join " " (q :: qs'))).
      apply (ws_head_rejoin _ _ _ ws2_space ws3_space_mid ws3_space_end p z).
      * apply Hne; [reflexivity|]. intros ->. simpl in Hp.
        injection Hp as _ <-. now destruct n.
      * now rewrite <- Hz.
  - destruct (take_last (re_split s) n) as (qs & pl & Ht & Hps);
      [apply split_nonempty|].
    rewrite Ht.
    assert (Hj : exists w, srev (join " " (qs ++ [pl])) = srev pl +:+ w
                           /\ (qs <> [] -> exists y, w = String " " y)).
    { destruct qs as [|q qs'].
      - exists "". split; [simpl; now rewrite sapp_nil_r | congruence].
      - destruct (join_last (q :: qs') pl) as [y Hy]; [discriminate|].
        rewrite Hy. exists (String " " (srev y)). split; [|eauto].
        rewrite srev_app. simpl. now rewrite sapp_assoc. }
    destruct Hj as (w & Hw & Hwq). rewrite Hw.
    destruct Hps as [Hps | (more & Hm & Hps)].
    + destruct (last_piece s AfterOther qs pl Hps) as (L1 & _ & L3).
      assert (Hs : exists z', srev s = srev pl +:+ z').
      { destruct L3 as [-> | [x ->]]; [exists ""; now rewrite sapp_nil_r|].
        exists (String " " (srev x)). rewrite srev_app. simpl. now rewrite sapp_assoc. }
      destruct Hs as [z' Hz']. rewrite Hz' in Htail.
      destruct qs as [|q qs'].
      * simpl in Hw. rewrite <- Hw. apply (ws_head_prefix _ _ _ _ z'), Htail.
      * destruct Hwq as [y ->]; [discriminate|].
        apply (ws_head_rejoin _ _ _ ws2r_space ws3r_space_mid ws3r_space_end _ z');
          [|exact Htail].
        intros Hnil. apply srev_nil in Hnil. subst pl.
        destruct L1 as [x Hx]; [discriminate|].
        rewrite Hx, srev_app in Hz'. simpl in Hz'. subst z'.
        change (ws_head ws1 ws2r ws3r (String " " (srev x)) = false) in Htail.
        now rewrite ws_head_space in Htail.
    + assert (Hc : chain AfterOther (qs ++ pl :: more) = true).
      { rewrite <- Hps. apply split_chain. }
      destruct (chain_inner_closed qs more pl AfterOther) as (y & c & -> & Hterm);
        [congruence | exact Hm | exact Hc |].
      rewrite srev_app. simpl.
      destruct (terminal_inert c Hterm) as (T1 & T2 & T3).
      now apply ws_head_inert.
Qed.

(** The cut text has no whitespace at either end. *)
Lemma shorten_stripped (raw : string) (n : nat) :
  strip (_shorten_reply raw (S n)) = _shorten_reply raw (S n).
Proof.
  unfold _shorten_reply. destruct (String.eqb raw ""); [reflexivity|].
  apply join_take_stripped; [apply strip_head | apply strip_tail].
Qed.

(** Cutting a cut text changes nothing. *)
Lemma shorten_idempotent (raw : string) (n : nat) :
  _shorten_reply (_shorten_reply raw (S n)) (S n) = _shorten_reply raw (S n).
Proof.
  set (t := _shorten_reply raw (S n)).
  unfold _shorten_reply at 1. destruct (String.eqb t "") eqn:Ht.
  - symmetry. now apply String.eqb_eq.
  - unfold t at 1. rewrite shorten_stripped. fold t.
    unfold t, _shorten_reply. destruct (String.eqb raw ""); [now destruct n|].
    unfold re_split at 1. rewrite split_join.
    + now rewrite take_take, Nat.min_id.
    + apply chain_take, split_chain.
Qed.

End Shorten.

(** * Facts about the completion marker *)

Section Marker.


Lemma contains_tail (t s : string) (c : ascii) :
  contains t (String c s) = false ->
  String.prefix t (String c s) = false /\ contains t s = false.
Proof. cbn [contains]. apply orb_false_elim. Qed.

(** Where the text to replace does not occur, nothing is replaced. *)
Lemma replace_absent (old new s : string) :
  contains old s = false -> replace old new s = s.
Proof.
  unfold replace. induction s as [|c s IH]; intros H; [reflexivity|].
  apply contains_tail in H as [Hp Hc].
  cbn [replace_from]. rewrite Hp. now rewrite IH.
Qed.









End Marker.

(** * The reply shaper *)

Section Shaper.

(** C4 (as the specification words it, refuted).  The sentence rule of the
    specification ends a sentence at a terminal followed by any whitespace.
    The code ends it at a terminal followed by spaces only: six sentences on
    six lines are one sentence for it and come back whole, where the rule
    of the specification keeps the first four. *)
Lemma shorten_reply_keeps_lines :
  _shorten_reply six_lines 4 = six_lines
  /\ Reading.shorten six_lines = "A. B. C. D."
  /\ _shorten_reply six_lines 4 <> Reading.shorten six_lines.
Proof. vm_compute. repeat split; discriminate. Qed.

(** C4 (amended).  [_shorten_reply] strips the text, ends a sentence at a
    terminal ([.], [!] or [?]) directly followed by one or more space
    characters, and returns at most the first four sentences joined with
    single spaces: a text without outer whitespace that is a list of
    sentences written one after the other, each followed by one or more
    spaces, comes back as its first four sentences with single spaces
    between them; what comes back never has more than four sentences; and
    the empty text comes back empty. *)
Theorem shorten_reply_first_four (l : list (string * nat)) (last : string) :
  chain AfterOther (map fst l ++ [last]) = true ->
  strip (glue l last) = glue l last ->
  _shorten_reply (glue l last) 4 = join " " (take 4 (map fst l ++ [last]))
  /\ (forall raw, re_split (_shorten_reply raw 4) = take 4 (re_split (strip raw))
                  /\ length (re_split (_shorten_reply raw 4)) <= 4)
  /\ _shorten_reply "" 4 = "".
Proof.
  intros Hchain Hstrip. split; [|split; [|reflexivity]].
  - unfold _shorten_reply. destruct (String.eqb (glue l last) "") eqn:He.
    + apply String.eqb_eq in He.
      assert (Hs : re_split "" = map fst l ++ [last]).
      { unfold re_split. rewrite <- He. now apply split_glue. }
      now rewrite <- Hs.
    + rewrite Hstrip. unfold re_split. now rewrite split_glue.
  - intros raw.
    assert (H : re_split (_shorten_reply raw 4) = take 4 (re_split (strip raw))).
    { unfold _shorten_reply. destruct (String.eqb raw "") eqn:He.
      - apply String.eqb_eq in He. now subst raw.
      - unfold re_split at 1. apply split_join, chain_take, split_chain. }
    split; [exact H|]. rewrite H, length_take. lia.
Qed.

(** Six sentences with one to three spaces between them come back as the
    first four, with single spaces. *)
Lemma shorten_reply_first_four_witness :
  chain AfterOther (map fst six_sentences ++ ["Sleep early."]) = true
  /\ strip (glue six_sentences "Sleep early.") = glue six_sentences "Sleep early."
  /\ glue six_sentences "Sleep early."
     = "Rest well. Drink water!  Any fever? Call me.   Take care. Sleep early."
  /\ _shorten_reply (glue six_sentences "Sleep early.") 4
     = "Rest well. Drink water! Any fever? Call me.".
Proof.
  split; [reflexivity|]. split; [reflexivity|]. split; [reflexivity|].
  exact (proj1 (shorten_reply_first_four six_sentences "Sleep early."
                  eq_refl eq_refl)).
Defined.




End Shaper.

(** * The reply generator *)

(** C5 (as stated, refuted).  There is no single fallback reply: an empty
    response and an exception of the call are answered with different
    texts. *)
Lemma fallback_reply_not_unique :
  snd (doctor_reply (fun _ (w : unit) => (w, ChatResponse ""))
         [message "user" "hi"] None tt) = (EMPTY_REPLY, false)
  /\ snd (doctor_reply (fun _ (w : unit) => (w, OtherException "timed out"))
            [message "user" "hi"] None tt) = (TROUBLE_REPLY, false)
  /\ EMPTY_REPLY <> TROUBLE_REPLY
  /\ ~ (exists fallback : string, forall r : ollama_result,
          backend_failed r = true ->
          snd (doctor_reply (fun _ (w : unit) => (w, r))
                 [message "user" "hi"] None tt) = (fallback, false)).
Proof.
  split; [reflexivity|]. split; [reflexivity|]. split; [discriminate|].
  intros [fallback H].
  pose proof (H (ChatResponse "") eq_refl) as H1.
  pose proof (H (OtherException "timed out") eq_refl) as H2.
  change (snd (doctor_reply (fun _ (w : unit) => (w, ChatResponse ""))
                 [message "user" "hi"] None tt))
    with (EMPTY_REPLY, false) in H1.
  change (snd (doctor_reply (fun _ (w : unit) => (w, OtherException "timed out"))
                 [message "user" "hi"] None tt))
    with (TROUBLE_REPLY, false) in H2.
  rewrite <- H2 in H1. discriminate.
Qed.

Section ReplyGenerator.
Context {W : Type}.
Variable ollama_chat : list pydict -> W -> W * ollama_result.

(** C5 (amended).  For every failure of the call to the model the reply
    generator returns the completion flag false and a fixed reply chosen by
    the kind of failure: one text for an empty response, one for an error
    response about system memory, one for any other error response, one
    for any other exception. *)
Theorem doctor_reply_fallback (history : list pydict)
    (triage_context : option string) (w : W) :
  let response := snd (ollama_chat (build_messages history triage_context) w) in
  let answer := snd (doctor_reply ollama_chat history triage_context w) in
  backend_failed response = true ->
  snd answer = false
  /\ (response = ChatResponse "" -> fst answer = EMPTY_REPLY)
  /\ (forall e, response = ResponseError e ->
       fst answer = if contains "system memory" e then MEMORY_REPLY
                    else MODEL_ERROR_REPLY)
  /\ (forall e, response = OtherException e -> fst answer = TROUBLE_REPLY)
  /\ In (fst answer) [EMPTY_REPLY; MEMORY_REPLY; MODEL_ERROR_REPLY; TROUBLE_REPLY].
Proof.
  unfold doctor_reply.
  destruct (ollama_chat (build_messages history triage_context) w) as [w' r].
  cbn [snd fst]. intros Hfail.
  destruct r as [content | e | e]; cbn [reply_of backend_failed] in *.
  - rewrite Hfail. cbn [fst snd].
    repeat split; try (intros; discriminate); try (now left).
  - destruct (contains "system memory" e) eqn:He; cbn [fst snd];
      (split; [reflexivity|]; split; [discriminate|]; split;
       [intros e' [= <-]; now rewrite He|]; split; [discriminate|]);
      simpl; tauto.
  - cbn [fst snd]. repeat split; try (intros; discriminate); simpl; tauto.
Qed.

End ReplyGenerator.

(** The model is out of memory: the reply is the one about memory, and the
    flag is false. *)
Lemma doctor_reply_fallback_witness :
  backend_failed out_of_memory = true
  /\ snd (snd (doctor_reply (fun _ (w : unit) => (w, out_of_memory))
                 [message "user" "hi"] None tt)) = false
  /\ fst (snd (doctor_reply (fun _ (w : unit) => (w, out_of_memory))
                 [message "user" "hi"] None tt)) = MEMORY_REPLY.
Proof.
  split; [reflexivity|].
  pose proof (doctor_reply_fallback (fun _ (w : unit) => (w, out_of_memory))
                [message "user" "hi"] None tt eq_refl) as (H1 & _ & H3 & _).
  split; [exact H1 | exact (H3 _ eq_refl)].
Defined.

(** * The triage display table *)

Section Presenter.

Lemma triage_display_other (level : string) :
  ~ enumerated level -> triage_display !! level = None.
Proof.
  unfold enumerated, triage_display. intros H.
  rewrite !lookup_insert_ne by (intros <-; tauto).
  apply lookup_empty.
Qed.

Lemma present_other (level : string) :
  ~ enumerated level -> present level = ("#2a9d8f", "🟢 Routine condition").
Proof.
  intros H. unfold present. rewrite (triage_display_other _ H).
  cbn [default]. now rewrite !lookup_empty.
Qed.

Lemma enumerated_dec (level : string) : enumerated level \/ ~ enumerated level.
Proof.
  unfold enumerated.
  destruct (decide (level = "Emergency")); [tauto|].
  destruct (decide (level = "Urgent")); [tauto|].
  destruct (decide (level = "Routine")); [tauto|].
  destruct (decide (level = "Normal")); tauto.
Qed.

(** The color and the status shown are never empty. *)
Lemma present_nonempty (level : string) :
  fst (present level) <> "" /\ snd (present level) <> "".
Proof.
  destruct (enumerated_dec level) as [[-> | [-> | [-> | ->]]] | H];
    try (vm_compute; split; discriminate).
  rewrite (present_other _ H). split; discriminate.
Qed.

(** C6 (as stated, refuted).  A level outside the four is shown with the
    color of Routine but not with its status. *)
Lemma present_unknown_differs :
  ~ enumerated "Critical"
  /\ present "Critical" = ("#2a9d8f", "🟢 Routine condition")
  /\ present "Routine"
     = ("#2a9d8f", "🟢 Routine — No red flags; symptoms appear non-urgent.")
  /\ present "Critical" <> present "Routine".
Proof.
  split; [unfold enumerated; intros [H | [H | [H | H]]]; discriminate|].
  vm_compute. repeat split; discriminate.
Qed.

(** C6 (amended).  The display lookup is total on level texts.  Each of the
    four levels has its own non-empty color and status; any other level is
    shown with the color of Routine and with the fixed status
    "Routine condition", which is not the status of Routine. *)
Theorem present_total (level : string) :
  present "Emergency" = ("#e63946", "🔴 Emergency — Immediate care required!")
  /\ present "Urgent" = ("#ff8800", "🟠 Urgent — Needs prompt medical attention.")
  /\ present "Routine"
     = ("#2a9d8f", "🟢 Routine — No red flags; symptoms appear non-urgent.")
  /\ present "Normal" = ("#2a9d8f", "🟢 Normal — Stable, no emergency detected.")
  /\ fst (present level) <> "" /\ snd (present level) <> ""
  /\ (~ enumerated level ->
      present level = ("#2a9d8f", "🟢 Routine condition")
      /\ fst (present level) = fst (present "Routine")
      /\ snd (present level) <> snd (present "Routine")).
Proof.
  do 4 (split; [vm_compute; reflexivity|]).
  split; [apply present_nonempty|]. split; [apply present_nonempty|].
  intros H. rewrite (present_other _ H).
  split; [reflexivity|]. split; [vm_compute; reflexivity|].
  vm_compute. discriminate.
Qed.

Lemma present_total_witness :
  ~ enumerated "Low"
  /\ present "Low" = ("#2a9d8f", "🟢 Routine condition").
Proof.
  assert (H : ~ enumerated "Low").
  { unfold enumerated. intros [H | [H | [H | H]]]; discriminate. }
  split; [exact H|].
  exact (proj1 (proj2 (proj2 (proj2 (proj2 (proj2 (proj2 (present_total "Low")))))) H)).
Defined.

End Presenter.

(** * The messages sent to the model *)

Section Replay.

Lemma normalize_turn (p : string * string) :
  speaker p -> normalize (turn p) = if has_text p then [turn p] else [].
Proof.
  destruct p as [r c]. unfold speaker, turn, has_text, normalize, content_of, message.
  cbn [fst snd]. intros Hr.
  rewrite lookup_insert_eq, lookup_insert_ne, lookup_insert_eq by discriminate.
  rewrite lookup_insert_ne, lookup_insert_ne, lookup_empty by discriminate.
  cbn [default].
  destruct (truthy c) eqn:Hc.
  - rewrite Hc. destruct Hr as [-> | ->]; reflexivity.
  - reflexivity.
Qed.

Lemma normalize_turns (ps : list (string * string)) :
  Forall speaker ps ->
  concat (map normalize (map turn ps)) = map turn (filter (fun p => has_text p = true) ps).
Proof.
  induction 1 as [|p ps Hp _ IH]; [reflexivity|].
  cbn [map concat]. rewrite (normalize_turn _ Hp), IH.
  rewrite filter_cons. destruct (has_text p).
  - rewrite decide_True by reflexivity. reflexivity.
  - rewrite decide_False by discriminate. reflexivity.
Qed.

(** The messages built from a stored turn list. *)
Lemma build_messages_turns (ps : list (string * string)) :
  Forall speaker ps ->
  build_messages (map turn ps) None
  = message "system" SYSTEM_PROMPT
    :: map turn (filter (fun p => has_text p = true) ps).
Proof.
  intros H. unfold build_messages. rewrite (normalize_turns _ H).
  now rewrite app_nil_r.
Qed.

End Replay.

(** * The turn handler *)

Section Turn.

(** [chat] appends the two turns, then assesses. *)
Lemma chat_unfold (E : Env) (req : SimpleChatRequest) (w : World) :
  chat E req w
  = assess E (session_id E req) (fst (answer E req w)) (snd (answer E req w))
      (after_reply E req w).
Proof.
  unfold chat, assess, after_reply, answer, sent_messages, prior_turns.
  set (sid := session_id E req).
  unfold bind, try_except, open_session, session_append, logs_append, session,
    total, doctor_reply, ollama_chat, record_call, ret.
  destruct (SESSIONS w !! sid) as [old|] eqn:Hold.
  - change (default [] (Some old)) with old.
    rewrite Hold. cbn [SESSIONS message_logs calls].
    rewrite lookup_insert_eq.
    destruct (reply_of _) as [reply flag].
    cbn [fst snd SESSIONS message_logs calls].
    rewrite lookup_insert_eq. cbn [SESSIONS message_logs calls].
    rewrite insert_insert_eq, <- !app_assoc. reflexivity.
  - change (default [] None) with (@nil pydict).
    cbn [SESSIONS message_logs calls app].
    rewrite lookup_insert_eq. cbn [SESSIONS message_logs calls app].
    rewrite lookup_insert_eq.
    destruct (reply_of _) as [reply flag].
    cbn [fst snd SESSIONS message_logs calls app].
    rewrite lookup_insert_eq. cbn [SESSIONS message_logs calls app].
    rewrite !insert_insert_eq. reflexivity.
Qed.

Lemma render_turns (ps : list (string * string)) :
  render_all (map turn ps) = Ok (map line ps).
Proof.
  induction ps as [|[r c] ps IH]; [reflexivity|].
  cbn [map render_all]. rewrite IH.
  unfold render, turn, message. cbn [fst snd].
  rewrite lookup_insert_eq, lookup_insert_ne, lookup_insert_eq by discriminate.
  reflexivity.
Qed.

(** What the second half of [chat] does with a stored turn list. *)
Lemma assess_run (E : Env) (sid reply : string) (flag : bool) (w : World)
    (ps : list (string * string)) :
  SESSIONS w !! sid = Some (map turn ps) ->
  assess E sid reply flag w
  = let conv := join newline (map line ps) in
    let structured := stage_extract E conv in
    let raw := stage_evaluate E structured in
    match verify E raw [] with
    | Raise e =>
      (with_calls w [CallExtract conv; CallEvaluate structured; CallVerify raw []],
       Raise e)
    | Ok verified =>
      let record :=
        {| log_session_turns := map turn ps; log_structured := structured;
           log_triage := display verified flag; log_ts := time_ts E |} in
      (with_calls w [CallExtract conv; CallEvaluate structured; CallVerify raw [];
                     CallLog sid record],
       match log_session E sid record with
       | Ok _ => Ok {| success := true; response := reply;
                       triage := display verified flag;
                       structured := structured |}
       | Raise e => Raise e
       end)
    end.
Proof.
  intros Hs. cbv zeta.
  unfold assess, bind, try_except, session, conv_text_of, call, record_call, ret,
    stage_extract, stage_evaluate, with_calls, display.
  rewrite Hs, render_turns.
  destruct (extract_structured E _) as [structured | e1];
    cbn [SESSIONS message_logs calls];
    (destruct (evaluate_triage E _) as [raw | e2];
     cbn [SESSIONS message_logs calls];
     (destruct (verify E _ []) as [verified | e3];
      cbn [SESSIONS message_logs calls];
      [rewrite Hs; cbn [SESSIONS message_logs calls];
       destruct (log_session E sid _) as [[] | e4]|];
      rewrite <- !app_assoc; reflexivity)).
Qed.

(** Whatever its collaborators do, the second half of [chat] leaves the store
    and the message log as they are, sends nothing to the model, and answers
    with the reply it was given. *)
Lemma assess_frame (E : Env) (sid reply : string) (flag : bool) (w : World) :
  SESSIONS (fst (assess E sid reply flag w)) = SESSIONS w
  /\ message_logs (fst (assess E sid reply flag w)) = message_logs w
  /\ ollama_calls (calls (fst (assess E sid reply flag w))) = ollama_calls (calls w)
  /\ (forall resp, snd (assess E sid reply flag w) = Ok resp -> response resp = reply).
Proof.
  assert (Hsnoc : forall cs c, ollama_calls cs = ollama_calls (calls w) ->
            (forall ms, c <> CallOllama ms) ->
            ollama_calls (cs ++ [c]) = ollama_calls (calls w)).
  { intros cs c <- Hc. induction cs as [|d cs IH]; simpl.
    - destruct c; try reflexivity. now destruct (Hc messages).
    - destruct d; simpl; now rewrite ?IH. }
  unfold assess, bind, try_except, session, conv_text_of, call, record_call, ret.
  destruct (SESSIONS w !! sid) as [turns|] eqn:Hs;
    [|repeat split; try reflexivity; intros resp; discriminate].
  destruct (render_all turns) as [lines | e0];
    [|repeat split; try reflexivity; intros resp; discriminate].
  destruct (extract_structured E _) as [structured | e1];
    cbn [SESSIONS message_logs calls fst snd];
    (destruct (evaluate_triage E _) as [raw | e2];
     cbn [SESSIONS message_logs calls fst snd];
     (destruct (verify E _ []) as [verified | e3];
      cbn [SESSIONS message_logs calls fst snd];
      [rewrite Hs; cbn [SESSIONS message_logs calls fst snd];
       destruct (log_session E sid _) as [[] | e4];
       cbn [SESSIONS message_logs calls fst snd]|];
      (split; [reflexivity|]; split; [reflexivity|]; split;
       [repeat (apply Hsnoc; [|discriminate]); reflexivity
       |intros resp [= <-] || (intros resp; discriminate); reflexivity]))).
Qed.

Lemma after_reply_session (E : Env) (req : SimpleChatRequest) (w : World) :
  SESSIONS (after_reply E req w) !! session_id E req
  = Some (prior_turns E req w
          ++ [message "user" (req_message req);
              message "assistant" (fst (answer E req w))]).
Proof. unfold after_reply. cbn [SESSIONS]. apply lookup_insert_eq. Qed.

Lemma prior_turns_ok (E : Env) (req : SimpleChatRequest) (w : World) :
  store_ok w -> exists ps, prior_turns E req w = map turn ps /\ Forall speaker ps.
Proof.
  intros Hok. unfold prior_turns.
  destruct (SESSIONS w !! session_id E req) as [turns|] eqn:Hs.
  - exact (Hok _ _ Hs).
  - exists []. split; [reflexivity | constructor].
Qed.

(** The turn list of the session once both turns are appended, as roles and
    texts. *)
Lemma after_reply_turns (E : Env) (req : SimpleChatRequest) (w : World) :
  store_ok w ->
  exists ps,
    prior_turns E req w = map turn ps /\ Forall speaker ps
    /\ SESSIONS (after_reply E req w) !! session_id E req
       = Some (map turn (ps ++ [("user", req_message req);
                                ("assistant", fst (answer E req w))])).
Proof.
  intros Hok. destruct (prior_turns_ok E req w Hok) as (ps & Hps & Hsp).
  exists ps. split; [exact Hps|]. split; [exact Hsp|].
  rewrite after_reply_session, Hps, map_app. reflexivity.
Qed.

Lemma extract_calls_app (cs ds : list Call) :
  extract_calls (cs ++ ds) = extract_calls cs ++ extract_calls ds.
Proof.
  induction cs as [|c cs IH]; [reflexivity|].
  destruct c; simpl; now rewrite IH.
Qed.

Lemma ollama_calls_app (cs ds : list Call) :
  ollama_calls (cs ++ ds) = ollama_calls cs ++ ollama_calls ds.
Proof.
  induction cs as [|c cs IH]; [reflexivity|].
  destruct c; simpl; now rewrite IH.
Qed.

(** A request leaves the turn lists of the other sessions as they are. *)
Lemma chat_other_sessions (E : Env) (req : SimpleChatRequest) (w : World)
    (sid : string) :
  sid <> session_id E req ->
  SESSIONS (fst (chat E req w)) !! sid = SESSIONS w !! sid.
Proof.
  intros Hne. rewrite chat_unfold.
  destruct (assess_frame E (session_id E req) (fst (answer E req w))
              (snd (answer E req w)) (after_reply E req w)) as (Hs & _).
  rewrite Hs. unfold after_reply. cbn [SESSIONS].
  now rewrite lookup_insert_ne by congruence.
Qed.

(** The store of a process that only runs [chat] holds turns with the two
    roles. *)
Lemma store_ok_initial : store_ok initial.
Proof. intros sid turns H. cbn in H. now rewrite lookup_empty in H. Qed.

Lemma chat_store_ok (E : Env) (req : SimpleChatRequest) (w : World) :
  store_ok w -> store_ok (fst (chat E req w)).
Proof.
  intros Hok. rewrite chat_unfold.
  destruct (assess_frame E (session_id E req) (fst (answer E req w))
              (snd (answer E req w)) (after_reply E req w)) as (Hs & _).
  intros sid turns. rewrite Hs.
  destruct (decide (sid = session_id E req)) as [-> | Hne].
  - destruct (after_reply_turns E req w Hok) as (ps & _ & Hsp & Hl).
    rewrite Hl. intros [= <-]. eexists. split; [reflexivity|].
    apply Forall_app. split; [exact Hsp|].
    constructor; [now left|]. constructor; [now right | constructor].
  - unfold after_reply. cbn [SESSIONS]. rewrite lookup_insert_ne by congruence.
    apply Hok.
Qed.

End Turn.

(** * The properties of the turn handler *)

Section TurnProperties.

(** C1 (as stated, refuted).  The call to the verifier stands outside every
    [try]: when it raises, the turn raises, and no reply and no triage are
    returned. *)
Lemma chat_verifier_failure_aborts :
  snd (chat verifier_down hello initial) = Raise "verifier down"
  /\ ~ (exists resp, snd (chat verifier_down hello initial) = Ok resp).
Proof.
  assert (H : snd (chat verifier_down hello initial) = Raise "verifier down")
    by (vm_compute; reflexivity).
  split; [exact H|]. intros [resp Hr]. rewrite H in Hr. discriminate.
Qed.

(** C1 (amended).  In a store that holds turns of the route, and when the
    verifier and the persistence call return, the turn returns a reply and
    a triage display whatever the model, the extractor and the evaluator do,
    failure included: the extractor's failure gives the empty record, the
    evaluator's the fallback verdict.  The level and the reason shown are
    those of the verdict the verifier returned (Routine and the fixed reason
    where the verdict has none), the color and the status are never empty,
    and a verifier that hands back the fallback verdict gives the Routine
    display. *)
Theorem chat_turn_completes (E : Env) (req : SimpleChatRequest) (w : World) :
  store_ok w ->
  (forall raw e, verify E raw [] <> Raise e) ->
  (forall sid record e, log_session E sid record <> Raise e) ->
  exists resp conv verified,
    snd (chat E req w) = Ok resp
    /\ response resp = fst (answer E req w)
    /\ structured resp = stage_extract E conv
    /\ verify E (stage_evaluate E (stage_extract E conv)) [] = Ok verified
    /\ level (triage resp) = default "Routine" (verified !! "level")
    /\ reason (triage resp) = default DEFAULT_REASON (verified !! "reason")
    /\ severity_flag (triage resp) = snd (answer E req w)
    /\ color (triage resp) <> "" /\ status (triage resp) <> ""
    /\ (verified = FALLBACK_TRIAGE ->
        triage resp
        = {| level := "Routine"; reason := DEFAULT_REASON; color := "#2a9d8f";
             status := "🟢 Routine — No red flags; symptoms appear non-urgent.";
             severity_flag := snd (answer E req w) |}).
Proof.
  intros Hok Hver Hlog. rewrite chat_unfold.
  destruct (after_reply_turns E req w Hok) as (ps & _ & _ & Hl).
  rewrite (assess_run _ _ _ _ _ _ Hl). cbv zeta.
  set (conv := join newline (map line _)).
  destruct (verify E (stage_evaluate E (stage_extract E conv)) []) as [verified | e] eqn:Hv;
    [|now destruct (Hver _ _ Hv)].
  match goal with |- context [log_session E ?sid ?rec] =>
    destruct (log_session E sid rec) as [[] | e] eqn:Hg; [|now destruct (Hlog _ _ _ Hg)]
  end.
  eexists _, conv, verified. cbn [snd response structured triage].
  split; [reflexivity|]. split; [reflexivity|]. split; [reflexivity|].
  split; [exact Hv|]. unfold display. cbn [level reason color status severity_flag].
  split; [reflexivity|]. split; [reflexivity|]. split; [reflexivity|].
  split; [apply present_nonempty|]. split; [apply present_nonempty|].
  intros ->. vm_compute. reflexivity.
Qed.

(** Every backend call fails and the verifier passes the verdict through:
    the turn returns the reply for an exception and the Routine display. *)
Lemma chat_turn_completes_witness :
  store_ok initial
  /\ (forall raw e, verify all_down raw [] <> Raise e)
  /\ (forall sid record e, log_session all_down sid record <> Raise e)
  /\ exists resp,
       snd (chat all_down hello initial) = Ok resp
       /\ response resp = TROUBLE_REPLY
       /\ structured resp = ∅
       /\ triage resp
          = {| level := "Routine"; reason := DEFAULT_REASON; color := "#2a9d8f";
               status := "🟢 Routine — No red flags; symptoms appear non-urgent.";
               severity_flag := false |}.
Proof.
  assert (H1 : forall raw e, verify all_down raw [] <> Raise e) by discriminate.
  assert (H2 : forall sid record e, log_session all_down sid record <> Raise e)
    by discriminate.
  split; [exact store_ok_initial|]. split; [exact H1|]. split; [exact H2|].
  destruct (chat_turn_completes all_down hello initial store_ok_initial H1 H2)
    as (resp & conv & verified & Hr & Hreply & Hst & Hv & _ & _ & _ & _ & _ & Hd).
  exists resp. split; [exact Hr|]. split; [exact Hreply|]. split; [exact Hst|].
  apply Hd. injection Hv as <-. reflexivity.
Defined.

(** C2 (as stated, refuted).  The lines of the transcript carry the roles the
    store holds, [user] and [assistant], not [patient] and [doctor]. *)
Lemma transcript_roles_differ :
  extract_calls (calls (fst (chat (healthy "Rest.") hello initial)))
  = ["user: I have a headache" +:+ newline +:+ "assistant: Rest."]
  /\ extract_calls (calls (fst (chat (healthy "Rest.") hello initial)))
     <> ["patient: I have a headache" +:+ newline +:+ "doctor: Rest."].
Proof. vm_compute. split; [reflexivity | discriminate]. Qed.

(** C2 (amended).  In a store that holds turns of the route, the transcript
    handed to the extractor is the turn list of the session, both new turns
    included, one line [role: text] per turn, the lines joined by newlines;
    the roles are [user] and [assistant]. *)
Theorem chat_transcript (E : Env) (req : SimpleChatRequest) (w : World) :
  store_ok w ->
  exists ps,
    SESSIONS (fst (chat E req w)) !! session_id E req = Some (map turn ps)
    /\ Forall speaker ps
    /\ extract_calls (calls (fst (chat E req w)))
       = extract_calls (calls w) ++ [join newline (map line ps)].
Proof.
  intros Hok.
  destruct (after_reply_turns E req w Hok) as (ps & _ & Hsp & Hl).
  exists (ps ++ [("user", req_message req); ("assistant", fst (answer E req w))]).
  rewrite chat_unfold.
  destruct (assess_frame E (session_id E req) (fst (answer E req w))
              (snd (answer E req w)) (after_reply E req w)) as (Hs & _).
  rewrite Hs. split; [exact Hl|]. split.
  - apply Forall_app. split; [exact Hsp|].
    constructor; [now left|]. constructor; [now right | constructor].
  - rewrite (assess_run _ _ _ _ _ _ Hl). cbv zeta.
    destruct (verify E _ []); cbn [fst with_calls calls after_reply];
      rewrite !extract_calls_app; cbn [extract_calls]; now rewrite app_nil_r.
Qed.

Lemma chat_transcript_witness :
  store_ok after_hello
  /\ exists ps,
       SESSIONS (fst (chat (healthy "Sleep.") hello after_hello)) !! "s1"
       = Some (map turn ps)
       /\ Forall speaker ps
       /\ extract_calls (calls (fst (chat (healthy "Sleep.") hello after_hello)))
          = extract_calls (calls after_hello) ++ [join newline (map line ps)].
Proof.
  assert (H : store_ok after_hello) by apply chat_store_ok, store_ok_initial.
  split; [exact H|].
  exact (chat_transcript (healthy "Sleep.") hello after_hello H).
Defined.

(** C7 (as stated, refuted).  A patient message that is empty is stored as a
    turn, and is left out of the messages sent to the model: for the first
    request of a session with an empty message the model gets the system
    instruction alone. *)
Lemma empty_turn_not_replayed :
  SESSIONS (fst (chat (healthy "Tell me more.") silent initial)) !! "s1"
  = Some [message "user" ""; message "assistant" "Tell me more."]
  /\ ollama_calls (calls (fst (chat (healthy "Tell me more.") silent initial)))
     = [[message "system" SYSTEM_PROMPT]]
  /\ build_messages [message "user" ""] None
     <> [message "system" SYSTEM_PROMPT; message "user" ""].
Proof.
  split; [vm_compute; reflexivity|]. split; [vm_compute; reflexivity|].
  intros H. apply (f_equal (@length pydict)) in H. vm_compute in H. discriminate.
Qed.

(** C7 (amended).  The messages sent to the model are the system instruction
    followed by the turns of the session that have a non-empty text, with
    role and text unchanged and in the order of the conversation; a turn
    with an empty text is left out.  Each request sends the messages built
    from the turn list of its session, the new patient turn included. *)
Theorem build_messages_replay (ps : list (string * string)) :
  Forall speaker ps ->
  build_messages (map turn ps) None
  = message "system" SYSTEM_PROMPT
    :: map turn (filter (fun p => has_text p = true) ps)
  /\ (Forall (fun p => snd p <> "") ps ->
      build_messages (map turn ps) None
      = message "system" SYSTEM_PROMPT :: map turn ps)
  /\ (forall E req w,
        ollama_calls (calls (fst (chat E req w)))
        = ollama_calls (calls w)
          ++ [build_messages
                (prior_turns E req w ++ [message "user" (req_message req)]) None]).
Proof.
  intros Hsp. split; [now apply build_messages_turns|]. split.
  - intros Hne. rewrite (build_messages_turns _ Hsp). do 2 f_equal.
    clear Hsp. induction Hne as [|p ps Hp _ IH]; [reflexivity|].
    rewrite filter_cons, decide_True, IH; [reflexivity|].
    unfold has_text, truthy. apply negb_true_iff, String.eqb_neq, Hp.
  - intros E req w. rewrite chat_unfold.
    destruct (assess_frame E (session_id E req) (fst (answer E req w))
                (snd (answer E req w)) (after_reply E req w)) as (_ & _ & Ho & _).
    rewrite Ho. unfold after_reply. cbn [calls].
    now rewrite ollama_calls_app.
Qed.

Lemma build_messages_replay_witness :
  Forall speaker [("user", "I have a headache"); ("assistant", ""); ("user", "Since Monday")]
  /\ build_messages
       [message "user" "I have a headache"; message "assistant" "";
        message "user" "Since Monday"] None
     = [message "system" SYSTEM_PROMPT; message "user" "I have a headache";
        message "user" "Since Monday"].
Proof.
  assert (H : Forall speaker
                [("user", "I have a headache"); ("assistant", ""); ("user", "Since Monday")]).
  { constructor; [now left|]. constructor; [now right|].
    constructor; [now left | constructor]. }
  split; [exact H|]. exact (proj1 (build_messages_replay _ H)).
Defined.



(** C10.  The first request of a session id that the store does not hold
    empties the one message log of the process before it logs its own
    two messages: whatever was logged for other sessions is gone.  The
    turn lists of the other session ids stay as they are. *)
Theorem chat_new_session_clears_log (E : Env) (req : SimpleChatRequest) (w : World) :
  SESSIONS w !! session_id E req = None ->
  message_logs (fst (chat E req w))
  = [log_message "patient" (req_message req);
     log_message "doctor" (fst (answer E req w))]
  /\ (forall sid, sid <> session_id E req ->
      SESSIONS (fst (chat E req w)) !! sid = SESSIONS w !! sid).
Proof.
  intros Hnew. split; [|intros sid; apply chat_other_sessions].
  rewrite chat_unfold.
  destruct (assess_frame E (session_id E req) (fst (answer E req w))
              (snd (answer E req w)) (after_reply E req w)) as (_ & Hm & _).
  rewrite Hm. unfold after_reply. cbn [message_logs]. now rewrite Hnew.
Qed.

(** After a request of session "s1", the first request of session "s2"
    leaves only its own two messages in the log, and the turns of "s1"
    in the store. *)
Lemma chat_new_session_clears_log_witness :
  SESSIONS after_hello !! session_id (healthy "Ice it.") knee = None
  /\ message_logs after_hello
     = [log_message "patient" "I have a headache"; log_message "doctor" "Rest."]
  /\ message_logs (fst (chat (healthy "Ice it.") knee after_hello))
     = [log_message "patient" "My knee hurts"; log_message "doctor" "Ice it."]
  /\ SESSIONS (fst (chat (healthy "Ice it.") knee after_hello)) !! "s1"
     = Some [message "user" "I have a headache"; message "assistant" "Rest."].
Proof.
  assert (H : SESSIONS after_hello !! session_id (healthy "Ice it.") knee = None)
    by (vm_compute; reflexivity).
  split; [exact H|]. split; [vm_compute; reflexivity|].
  destruct (chat_new_session_clears_log (healthy "Ice it.") knee after_hello H)
    as (H1 & H2).
  split; [rewrite H1; vm_compute; reflexivity|].
  rewrite (H2 "s1"); [vm_compute; reflexivity | discriminate].
Defined.

End TurnProperties.

(** * More on the cut text and the shaper *)

Import Auth Reports Histories MoreExamples.

Section Lengths.

Lemma srev_length (s : string) : String.length (srev s) = String.length s.
Proof.
  induction s as [|c s IH]; [reflexivity|].
  simpl. rewrite sapp_length, IH. simpl. lia.
Qed.

Lemma strip_front_length (w1 : ascii -> bool) (w2 : ascii -> ascii -> bool)
    (w3 : ascii -> ascii -> ascii -> bool) (s : string) :
  String.length (strip_front w1 w2 w3 s) <= String.length s.
Proof.
  destruct (strip_front_suffix w1 w2 w3 s) as [z Hz].
  rewrite Hz at 2. rewrite sapp_length. lia.
Qed.

Lemma strip_length (s : string) : String.length (strip s) <= String.length s.
Proof.
  unfold strip, rstrip, lstrip. rewrite srev_length.
  etransitivity; [apply strip_front_length|]. rewrite srev_length.
  apply strip_front_length.
Qed.

Lemma join_push (c : ascii) (ps : list string) :
  ps <> [] -> join " " (push c ps) = String c (join " " ps).
Proof. destruct ps as [|p [|q ps]]; [congruence | reflexivity | reflexivity]. Qed.

Lemma join_cons (p : string) (ps : list string) :
  ps <> [] -> join " " (p :: ps) = p +:+ String " " (join " " ps).
Proof. destruct ps; [congruence | reflexivity]. Qed.

(** The sentences of a text, joined with single spaces, are not longer than
    the text. *)
Lemma join_split_length (s : string) (st : scan) :
  String.length (join " " (re_split_from st s)) <= String.length s.
Proof.
  revert st. induction s as [|c s IH]; intros st; [simpl; lia|].
  assert (Hpush : forall st', String.length (join " " (push c (re_split_from st' s)))
                              <= S (String.length s)).
  { intros st'. rewrite join_push by apply split_nonempty.
    simpl. specialize (IH st'). lia. }
  cbn [re_split_from]. destruct (is_space c); [destruct st|]; try apply Hpush.
  - rewrite join_cons by apply split_nonempty. simpl. specialize (IH InGap). lia.
  - simpl String.length. specialize (IH InGap). lia.
Qed.

Lemma join_take_length (ps : list string) (n : nat) :
  String.length (join " " (take n ps)) <= String.length (join " " ps).
Proof.
  revert n. induction ps as [|p ps IH]; intros n; [now destruct n|].
  destruct n as [|n]; [simpl; lia|].
  cbn [take]. destruct ps as [|q ps]; [now destruct n|].
  rewrite (join_cons p (q :: ps)) by discriminate.
  destruct (take n (q :: ps)) as [|q' ps'] eqn:Ht.
  - cbn [join String.concat]. rewrite sapp_length. lia.
  - rewrite join_cons by discriminate. rewrite <- Ht.
    rewrite !sapp_length. cbn [String.length]. specialize (IH n). lia.
Qed.

Lemma replace_from_length (old s : string) (k : nat) :
  String.length (replace_from k old "" s) <= String.length s.
Proof.
  revert k. induction s as [|c s IH]; intros k; [simpl; lia|].
  cbn [replace_from]. destruct k as [|k].
  - destruct (String.prefix old (String c s)); simpl.
    + specialize (IH (String.length old - 1)). lia.
    + specialize (IH 0). lia.
  - simpl. specialize (IH k). lia.
Qed.

Lemma shorten_length (raw : string) (n : nat) :
  String.length (_shorten_reply raw n) <= String.length raw.
Proof.
  unfold _shorten_reply. destruct (String.eqb raw ""); [simpl; lia|].
  etransitivity; [apply join_take_length|].
  etransitivity; [apply join_split_length | apply strip_length].
Qed.

End Lengths.

Section MarkerOrigin.

Lemma occurs_refl (s : string) : occurs s s.
Proof. exists "", "". simpl. now rewrite sapp_nil_r. Qed.

Lemma occurs_trans (t q s : string) : occurs t q -> occurs q s -> occurs t s.
Proof.
  intros (a & b & ->) (a' & b' & ->).
  exists (a' +:+ a), (b +:+ b'). now rewrite !sapp_assoc.
Qed.

Lemma occurs_cons (t s : string) (c : ascii) : occurs t s -> occurs t (String c s).
Proof. intros (a & b & ->). now exists (String c a), b. Qed.

(** A text that starts a text with a space after it, and has no space
    itself, as the marker: it starts the part before the space. *)
Lemma marker_prefix_space (x y : string) :
  String.prefix END_CONVO (x +:+ String " " y) = true ->
  String.prefix END_CONVO x = true.
Proof.
  intros H. apply prefix_app in H as [b Hb]. apply prefix_app.
  unfold END_CONVO in *.
  do 11 (destruct x as [|? x]; [simpl in Hb; congruence|]).
  simpl in Hb. exists x. simpl. congruence.
Qed.

Lemma marker_in_spaced (x y : string) :
  contains END_CONVO (x +:+ String " " y) = true ->
  contains END_CONVO x = true \/ contains END_CONVO y = true.
Proof.
  induction x as [|c x IH].
  - change ("" +:+ String " " y) with (String " " y). cbn [contains].
    destruct (String.prefix END_CONVO (String " " y)) eqn:Hp; [|now right].
    apply prefix_app in Hp as [b Hb]. discriminate.
  - change (String c x +:+ String " " y) with (String c (x +:+ String " " y)).
    cbn [contains]. intros H. apply orb_true_iff in H as [H | H].
    + left. apply (marker_prefix_space (String c x)) in H. now rewrite H.
    + destruct (IH H) as [Hx | Hy]; [left | now right].
      rewrite Hx. apply orb_true_r.
Qed.

(** A marker in sentences joined with spaces is in one of the sentences. *)
Lemma marker_in_join (qs : list string) :
  contains END_CONVO (join " " qs) = true ->
  Exists (fun q => contains END_CONVO q = true) qs.
Proof.
  induction qs as [|q qs IH]; [discriminate|].
  destruct qs as [|q' qs]; [intros H; now left|].
  rewrite join_cons by discriminate. intros H.
  destruct (marker_in_spaced _ _ H) as [Hq | Hr]; [now left | right; now apply IH].
Qed.

(** Every sentence of a text occurs in the text. *)
Lemma piece_occurs (s : string) (st : scan) (q : string) :
  In q (re_split_from st s) -> occurs q s.
Proof.
  revert st. induction s as [|c s IH]; intros st.
  - simpl. intros [<- | []]. apply occurs_refl.
  - assert (Hpush : forall st', st' <> InGap ->
              In q (push c (re_split_from st' s)) -> occurs q (String c s)).
    { intros st' Hst' Hin.
      destruct (first_piece s st' Hst') as (p & ps & z & Hp & Hz & _).
      rewrite Hp in Hin. destruct Hin as [<- | Hin].
      - exists "", z. simpl. now rewrite Hz.
      - apply occurs_cons, (IH st'). rewrite Hp. now right. }
    cbn [re_split_from]. destruct (is_space c); [destruct st|].
    + apply Hpush. congruence.
    + intros [<- | Hin]; [now exists "", (String c s)|].
      now apply occurs_cons, (IH InGap).
    + intros Hin. now apply occurs_cons, (IH InGap).
    + apply Hpush. destruct (is_terminal c); congruence.
Qed.

Lemma strip_occurs (raw : string) : occurs (strip raw) raw.
Proof.
  unfold strip, rstrip, lstrip.
  destruct (strip_front_suffix ws1 ws2 ws3 raw) as [z Hz].
  destruct (strip_front_suffix ws1 ws2r ws3r (srev (strip_front ws1 ws2 ws3 raw)))
    as [z' Hz'].
  apply (f_equal srev) in Hz'. rewrite srev_involutive, srev_app in Hz'.
  exists z, (srev z'). now rewrite <- Hz', <- Hz.
Qed.

Lemma In_take (q : string) (n : nat) (l : list string) :
  In q (take n l) -> In q l.
Proof.
  revert n. induction l as [|p l IH]; intros [|n] H; try now destruct H.
  destruct H as [-> | H]; [now left | right; now apply (IH n)].
Qed.

(** A marker in the cut text is a marker of the raw text. *)
Lemma shorten_marker_origin (raw : string) (n : nat) :
  contains END_CONVO (_shorten_reply raw n) = true -> occurs END_CONVO raw.
Proof.
  unfold _shorten_reply. destruct (String.eqb raw ""); [discriminate|].
  intros H. apply marker_in_join, Exists_exists in H as (q & Hq & Hc).
  apply contains_occurs in Hc.
  apply (occurs_trans _ (strip raw)); [|apply strip_occurs].
  apply (occurs_trans _ q); [exact Hc|].
  apply (piece_occurs _ AfterOther), (In_take _ n), list_elem_of_In, Hq.
Qed.

End MarkerOrigin.

(** * Further properties of doctor_agent.py *)

Section AgentProperties.

(** X1.  For every raw text and every limit, the cut text has no whitespace
    at either end, is not longer than the raw text, and is left as it is
    when cut again; for a limit of at least one its sentences are the first
    sentences of the stripped raw text, up to the limit. *)
Theorem shorten_reply_bounds (raw : string) (n : nat) :
  strip (_shorten_reply raw n) = _shorten_reply raw n
  /\ _shorten_reply (_shorten_reply raw n) n = _shorten_reply raw n
  /\ String.length (_shorten_reply raw n) <= String.length raw
  /\ re_split (_shorten_reply raw (S n)) = take (S n) (re_split (strip raw)).
Proof.
  split; [|split; [|split]].
  - destruct n; [|apply shorten_stripped].
    unfold _shorten_reply. now destruct (String.eqb raw "").
  - destruct n; [|apply shorten_idempotent].
    assert (H0 : _shorten_reply raw 0 = "")
      by (unfold _shorten_reply; now destruct (String.eqb raw "")).
    now rewrite H0.
  - apply shorten_length.
  - unfold _shorten_reply. destruct (String.eqb raw "") eqn:He.
    + apply String.eqb_eq in He. subst raw. now destruct n.
    + unfold re_split at 1. apply split_join, chain_take, split_chain.
Qed.

(** X2.  The text the shaper returns has no whitespace at either end and is
    not longer than the raw reply. *)
Theorem shape_trimmed (raw : string) :
  strip (fst (shape raw)) = fst (shape raw)
  /\ String.length (fst (shape raw)) <= String.length raw.
Proof.
  unfold shape. cbn [fst]. split; [apply strip_idempotent|].
  etransitivity; [apply strip_length|].
  etransitivity; [apply replace_from_length|].
  apply shorten_length.
Qed.

(** X3.  The completion flag is raised only for a raw reply that holds the
    marker; when it is not raised, the text returned is the cut text. *)
Theorem shape_flag_sound (raw : string) :
  (snd (shape raw) = true -> occurs END_CONVO raw)
  /\ (snd (shape raw) = false ->
      fst (shape raw) = _shorten_reply raw default_max_sentences).
Proof.
  unfold shape. cbn [fst snd]. split.
  - apply shorten_marker_origin.
  - intros H. rewrite (replace_absent _ _ _ H). apply shorten_stripped.
Qed.

Lemma shape_flag_sound_witness :
  snd (shape "Drink water. <END_CONVO>") = true
  /\ occurs END_CONVO "Drink water. <END_CONVO>"
  /\ snd (shape "Rest.  Drink water.") = false
  /\ fst (shape "Rest.  Drink water.") = "Rest. Drink water.".
Proof.
  split; [reflexivity|].
  split; [exact (proj1 (shape_flag_sound "Drink water. <END_CONVO>") eq_refl)|].
  split; [reflexivity|].
  exact (proj2 (shape_flag_sound "Rest.  Drink water.") eq_refl).
Defined.

Lemma truthy_nonempty (c : string) : truthy c = true <-> c <> "".
Proof. unfold truthy. rewrite negb_true_iff. apply String.eqb_neq. Qed.

(** What one entry of the history gives: nothing, or one message of a
    speaker with a text. *)
Lemma normalize_cases (m : pydict) :
  normalize m = [] \/ exists r c, normalize m = [message r c]
                                  /\ (r = "user" \/ r = "assistant") /\ c <> "".
Proof.
  unfold normalize. destruct (truthy (content_of m)) eqn:Hc; [|now left].
  apply truthy_nonempty in Hc. cbn [negb].
  destruct (in_list _ ["user"; "patient"]); [right; eauto 6|].
  destruct (in_list _ ["assistant"; "doctor"]); [right; eauto 6 | now left].
Qed.

Lemma normalize_all (history : list pydict) :
  Forall spoken (concat (map normalize history))
  /\ length (concat (map normalize history)) <= length history.
Proof.
  induction history as [|m history [IH1 IH2]]; [split; [constructor | reflexivity]|].
  cbn [map concat]. destruct (normalize_cases m) as [-> | (r & c & -> & Hr & Hc)].
  - split; [exact IH1 | simpl; lia].
  - split; [constructor; [now exists r, c | exact IH1] | simpl; lia].
Qed.

(** X4.  Whatever the history holds, the messages built are the system
    instruction, then at most one message for each entry of the history,
    each with the role [user] or [assistant] and a text that is not empty,
    then, for a triage context that is not empty, one system message with
    it; no context, or an empty one, adds nothing. *)
Theorem build_messages_well_formed (history : list pydict)
    (triage_context : option string) :
  exists body tail,
    build_messages history triage_context
    = message "system" SYSTEM_PROMPT :: body ++ tail
    /\ Forall spoken body
    /\ length body <= length history
    /\ match triage_context with
       | Some ctx =>
         if String.eqb ctx "" then tail = []
         else tail = [message "system" ("Triage context: " +:+ ctx)]
       | None => tail = []
       end.
Proof.
  eexists (concat (map normalize history)), _.
  split; [reflexivity|]. split; [apply normalize_all|]. split; [apply normalize_all|].
  destruct triage_context as [ctx|]; [|reflexivity].
  unfold truthy. now destruct (String.eqb ctx "").
Qed.

(** X5.  An entry in the form of the message log, with the role [patient]
    or [doctor] and its text under [message], gives the message that the
    stored turn gives: the messages built from logged entries are those
    built from the turns. *)
Theorem build_messages_log_format (ps : list (string * string))
    (triage_context : option string) :
  Forall speaker ps ->
  build_messages (map log_entry ps) triage_context
  = build_messages (map turn ps) triage_context.
Proof.
  intros Hsp. unfold build_messages. do 2 f_equal.
  induction Hsp as [|[r c] ps Hp _ IH]; [reflexivity|].
  cbn [map concat]. rewrite IH. f_equal.
  unfold log_entry, turn, normalize, content_of, log_message, message.
  cbn [fst snd]. destruct Hp as [Hr | Hr]; cbn [fst] in Hr; subst r; cbn [String.eqb Ascii.eqb Bool.eqb];
    rewrite ?lookup_insert_eq, ?lookup_empty;
    repeat (rewrite lookup_insert_ne by discriminate;
            rewrite ?lookup_insert_eq, ?lookup_empty);
    cbn [default]; now destruct (truthy c).
Qed.

Lemma build_messages_log_format_witness :
  Forall speaker [("user", "I have a headache"); ("assistant", "Since when?")]
  /\ build_messages
       [log_message "patient" "I have a headache"; log_message "doctor" "Since when?"]
       None
     = [message "system" SYSTEM_PROMPT; message "user" "I have a headache";
        message "assistant" "Since when?"].
Proof.
  assert (H : Forall speaker [("user", "I have a headache"); ("assistant", "Since when?")]).
  { constructor; [now left|]. constructor; [now right | constructor]. }
  split; [exact H|].
  etransitivity; [exact (build_messages_log_format _ None H)|].
  vm_compute. reflexivity.
Defined.

(** A longer history gives the same messages and more. *)
Lemma build_messages_app (h1 h2 : list pydict) :
  build_messages (h1 ++ h2) None
  = build_messages h1 None ++ concat (map normalize h2).
Proof.
  unfold build_messages. rewrite !app_nil_r, map_app, concat_app.
  reflexivity.
Qed.

End AgentProperties.

Section ReplySound.
Context {W : Type}.
Variable ollama_chat : list pydict -> W -> W * ollama_result.

Lemma reply_of_sound (r : ollama_result) :
  strip (fst (reply_of r)) = fst (reply_of r)
  /\ (snd (reply_of r) = true ->
      exists raw, r = ChatResponse raw /\ occurs END_CONVO raw).
Proof.
  destruct r as [raw | e | e]; cbn [reply_of].
  - destruct (truthy raw); cbn [negb].
    + split; [apply strip_idempotent|]. intros H. exists raw.
      split; [reflexivity|].
      now apply (shorten_marker_origin raw default_max_sentences).
    + split; [vm_compute; reflexivity | discriminate].
  - destruct (contains "system memory" e);
      (split; [vm_compute; reflexivity | discriminate]).
  - split; [vm_compute; reflexivity | discriminate].
Qed.

(** X6.  Whatever the call to the model gives, the reply of the reply
    generator has no whitespace at either end, and the completion flag is
    true only when the model answered with a text that holds the marker:
    no failure of the call raises it. *)
Theorem doctor_reply_sound (history : list pydict)
    (triage_context : option string) (w : W) :
  let response := snd (ollama_chat (build_messages history triage_context) w) in
  let answer := snd (doctor_reply ollama_chat history triage_context w) in
  strip (fst answer) = fst answer
  /\ (snd answer = true ->
      exists raw, response = ChatResponse raw /\ occurs END_CONVO raw).
Proof.
  unfold doctor_reply.
  destruct (ollama_chat (build_messages history triage_context) w) as [w' r].
  cbn [snd]. apply reply_of_sound.
Qed.

End ReplySound.

Lemma doctor_reply_sound_witness :
  snd (snd (doctor_reply
              (fun _ (w : unit) => (w, ChatResponse "  All clear. <END_CONVO> "))
              [message "user" "Thanks"] None tt)) = true
  /\ exists raw,
       ChatResponse "  All clear. <END_CONVO> " = ChatResponse raw
       /\ occurs END_CONVO raw.
Proof.
  split; [reflexivity|].
  exact (proj2 (doctor_reply_sound
                  (fun _ (w : unit) => (w, ChatResponse "  All clear. <END_CONVO> "))
                  [message "user" "Thanks"] None tt) eq_refl).
Defined.

(** * Further properties of the turn handler *)

Section MoreTurn.

Lemma chat_sessions (E : Env) (req : SimpleChatRequest) (w : World) :
  SESSIONS (fst (chat E req w))
  = <[session_id E req :=
        prior_turns E req w ++ exchange (req_message req, fst (answer E req w))]>
      (SESSIONS w).
Proof.
  rewrite chat_unfold.
  destruct (assess_frame E (session_id E req) (fst (answer E req w))
              (snd (answer E req w)) (after_reply E req w)) as (Hs & _).
  now rewrite Hs.
Qed.

Lemma chat_message_logs (E : Env) (req : SimpleChatRequest) (w : World) :
  message_logs (fst (chat E req w))
  = match SESSIONS w !! session_id E req with
    | Some _ => message_logs w
    | None => []
    end ++ logged (req_message req, fst (answer E req w)).
Proof.
  rewrite chat_unfold.
  destruct (assess_frame E (session_id E req) (fst (answer E req w))
              (snd (answer E req w)) (after_reply E req w)) as (_ & Hm & _).
  now rewrite Hm.
Qed.

(** X7.  A request of a session id that the store holds adds its two
    messages at the end of the message log and keeps what was logged
    before, whatever session logged it. *)
Theorem chat_known_session_keeps_log (E : Env) (req : SimpleChatRequest)
    (w : World) (old : list pydict) :
  SESSIONS w !! session_id E req = Some old ->
  message_logs (fst (chat E req w))
  = message_logs w
    ++ [log_message "patient" (req_message req);
        log_message "doctor" (fst (answer E req w))].
Proof. intros H. now rewrite chat_message_logs, H. Qed.

Lemma chat_known_session_keeps_log_witness :
  SESSIONS after_hello !! session_id (healthy "Sleep.") hello
  = Some [message "user" "I have a headache"; message "assistant" "Rest."]
  /\ message_logs (fst (chat (healthy "Sleep.") hello after_hello))
     = [log_message "patient" "I have a headache"; log_message "doctor" "Rest.";
        log_message "patient" "I have a headache"; log_message "doctor" "Sleep."].
Proof.
  assert (H : SESSIONS after_hello !! session_id (healthy "Sleep.") hello
              = Some [message "user" "I have a headache"; message "assistant" "Rest."])
    by (vm_compute; reflexivity).
  split; [exact H|].
  etransitivity; [exact (chat_known_session_keeps_log _ _ _ _ H)|].
  vm_compute. reflexivity.
Defined.

Lemma anonymous_session_id (E : Env) (req : SimpleChatRequest) :
  anonymous_request req ->
  session_id E req = "session-" +:+ format_int (time_int E).
Proof. unfold session_id. now intros [-> | ->]. Qed.

(** X8.  A request without a session id, or with an empty one, is given
    the id made of the clock's second.  Two such requests in the same
    second are one session: the second finds the turns of the first, and
    its turns are stored after them. *)
Theorem anonymous_requests_share_session (E1 E2 : Env)
    (req1 req2 : SimpleChatRequest) (w : World) :
  anonymous_request req1 -> anonymous_request req2 ->
  time_int E1 = time_int E2 ->
  session_id E1 req1 = "session-" +:+ format_int (time_int E1)
  /\ session_id E2 req2 = session_id E1 req1
  /\ prior_turns E2 req2 (fst (chat E1 req1 w))
     = prior_turns E1 req1 w
       ++ exchange (req_message req1, fst (answer E1 req1 w))
  /\ SESSIONS (fst (chat E2 req2 (fst (chat E1 req1 w)))) !! session_id E1 req1
     = Some (prior_turns E1 req1 w
             ++ exchange (req_message req1, fst (answer E1 req1 w))
             ++ exchange (req_message req2,
                          fst (answer E2 req2 (fst (chat E1 req1 w))))).
Proof.
  intros H1 H2 Ht.
  assert (Hid : session_id E2 req2 = session_id E1 req1)
    by now rewrite !anonymous_session_id, Ht.
  assert (Hp : prior_turns E2 req2 (fst (chat E1 req1 w))
               = prior_turns E1 req1 w
                 ++ exchange (req_message req1, fst (answer E1 req1 w))).
  { unfold prior_turns at 1. now rewrite chat_sessions, Hid, lookup_insert_eq. }
  split; [now apply anonymous_session_id|]. split; [exact Hid|]. split; [exact Hp|].
  rewrite chat_sessions, Hid, lookup_insert_eq, Hp, <- app_assoc. reflexivity.
Qed.

Lemma anonymous_requests_share_session_witness :
  anonymous_request anonymous
  /\ anonymous_request {| req_message := "My knee hurts"; req_session_id := Some "" |}
  /\ session_id all_down anonymous = "session-1700000000"
  /\ SESSIONS (fst (chat (healthy "Ice it.")
                      {| req_message := "My knee hurts"; req_session_id := Some "" |}
                      (fst (chat (healthy "Rest.") anonymous initial))))
       !! "session-1700000000"
     = Some [message "user" "I have a headache"; message "assistant" "Rest.";
             message "user" "My knee hurts"; message "assistant" "Ice it."].
Proof.
  assert (H1 : anonymous_request anonymous) by now left.
  assert (H2 : anonymous_request
                 {| req_message := "My knee hurts"; req_session_id := Some "" |})
    by now right.
  split; [exact H1|]. split; [exact H2|]. split; [reflexivity|].
  destruct (anonymous_requests_share_session (healthy "Rest.") (healthy "Ice it.")
              anonymous {| req_message := "My knee hurts"; req_session_id := Some "" |}
              initial H1 H2 eq_refl) as (_ & _ & _ & H).
  etransitivity; [exact H|]. vm_compute. reflexivity.
Defined.

(** X9.  A request sends the model what the request before it in the
    session sent, followed by the reply to that request and by its own
    message, each left out when it is empty. *)
Theorem chat_replays_previous_request (E1 E2 : Env)
    (req1 req2 : SimpleChatRequest) (w : World) :
  session_id E2 req2 = session_id E1 req1 ->
  sent_messages E2 req2 (fst (chat E1 req1 w))
  = sent_messages E1 req1 w
    ++ concat (map normalize [message "assistant" (fst (answer E1 req1 w));
                              message "user" (req_message req2)]).
Proof.
  intros Hid. unfold sent_messages. unfold prior_turns at 1.
  rewrite chat_sessions, Hid, lookup_insert_eq.
  change (default [] (Some ?l)) with l. unfold exchange. cbn [fst snd].
  set (prior := prior_turns E1 req1 w).
  assert (Hl : (prior ++ [message "user" (req_message req1);
                          message "assistant" (fst (answer E1 req1 w))])
               ++ [message "user" (req_message req2)]
               = (prior ++ [message "user" (req_message req1)])
                 ++ [message "assistant" (fst (answer E1 req1 w));
                     message "user" (req_message req2)])
    by now rewrite <- !app_assoc.
  rewrite Hl. apply build_messages_app.
Qed.

Lemma chat_replays_previous_request_witness :
  session_id (healthy "Sleep.") hello = session_id (healthy "Rest.") hello
  /\ sent_messages (healthy "Sleep.") hello (fst (chat (healthy "Rest.") hello initial))
     = [message "system" SYSTEM_PROMPT; message "user" "I have a headache";
        message "assistant" "Rest."; message "user" "I have a headache"].
Proof.
  split; [reflexivity|].
  etransitivity;
    [exact (chat_replays_previous_request (healthy "Rest.") (healthy "Sleep.")
              hello hello initial eq_refl)|].
  vm_compute. reflexivity.
Defined.

End MoreTurn.

Section Reachable.

Lemma simulate_frame (S : SimEnv) (w : World) :
  SESSIONS (fst (simulate_patient_chat S w)) = SESSIONS w
  /\ calls (fst (simulate_patient_chat S w)) = calls w.
Proof.
  unfold simulate_patient_chat.
  destruct (choose_patient S) as [[e | e] | patient]; split; reflexivity.
Qed.


Lemma dialogue_snoc (ps : list (string * string)) (p : string * string) :
  concat (map exchange ps) ++ exchange p = concat (map exchange (ps ++ [p])).
Proof. rewrite map_app, concat_app. reflexivity. Qed.

Lemma reachable_dialogue (w : World) :
  reachable w ->
  forall sid turns, SESSIONS w !! sid = Some turns -> dialogue turns.
Proof.
  induction 1 as [| E req w Hw IH | S w Hw IH]; intros sid turns Hl.
  - cbn in Hl. now rewrite lookup_empty in Hl.
  - rewrite chat_sessions in Hl.
    destruct (decide (sid = session_id E req)) as [-> | Hne].
    + rewrite lookup_insert_eq in Hl. injection Hl as <-.
      assert (Hp : dialogue (prior_turns E req w)).
      { unfold prior_turns. destruct (SESSIONS w !! session_id E req) as [old|] eqn:Ho.
        - exact (IH _ _ Ho).
        - now exists []. }
      destruct Hp as [ps ->]. eexists. now rewrite dialogue_snoc.
    + rewrite lookup_insert_ne in Hl by congruence. now apply (IH sid).
  - destruct (simulate_frame S w) as [Hs _]. rewrite Hs in Hl. now apply (IH sid).
Qed.



Lemma reachable_store_ok (w : World) : reachable w -> store_ok w.
Proof.
  intros Hw sid turns Hl.
  destruct (reachable_dialogue w Hw sid turns Hl) as [ps ->].
  clear. induction ps as [|[m r] ps (qs & Hq & Hsp)].
  - exists []. split; [reflexivity | constructor].
  - exists (("user", m) :: ("assistant", r) :: qs). cbn [map concat exchange app fst snd].
    rewrite Hq. split; [reflexivity|].
    constructor; [now left|]. constructor; [now right | exact Hsp].
Qed.

End Reachable.

Section Pipeline.

Lemma log_calls_app (cs ds : list Call) :
  log_calls (cs ++ ds) = log_calls cs ++ log_calls ds.
Proof.
  induction cs as [|c cs IH]; [reflexivity|].
  destruct c; simpl; now rewrite IH.
Qed.

(** The whole of a request in a store that holds turns of the route. *)
Lemma chat_run (E : Env) (req : SimpleChatRequest) (w : World) :
  store_ok w ->
  exists ps,
    map turn ps = prior_turns E req w
                  ++ exchange (req_message req, fst (answer E req w))
    /\ chat E req w
       = let conv := join newline (map line ps) in
         let structured := stage_extract E conv in
         let raw := stage_evaluate E structured in
         match verify E raw [] with
         | Raise e =>
           (with_calls (after_reply E req w)
              [CallExtract conv; CallEvaluate structured; CallVerify raw []],
            Raise e)
         | Ok verified =>
           let record :=
             {| log_session_turns := map turn ps; log_structured := structured;
                log_triage := display verified (snd (answer E req w));
                log_ts := time_ts E |} in
           (with_calls (after_reply E req w)
              [CallExtract conv; CallEvaluate structured; CallVerify raw [];
               CallLog (session_id E req) record],
            match log_session E (session_id E req) record with
            | Ok _ => Ok {| success := true; response := fst (answer E req w);
                            triage := display verified (snd (answer E req w));
                            structured := structured |}
            | Raise e => Raise e
            end)
         end.
Proof.
  intros Hok. destruct (after_reply_turns E req w Hok) as (ps & Hps & _ & Hl).
  eexists. split; [|rewrite chat_unfold; exact (assess_run _ _ _ _ _ _ Hl)].
  rewrite Hps, map_app. reflexivity.
Qed.

(** X11.  In a store that holds turns of the route, a request calls the
    model, the extractor, the evaluator and the verifier once each, in
    this order: the evaluator gets the record of the extractor, or the
    empty record when the extractor raised; the verifier gets the verdict
    of the evaluator, or the fallback verdict when the evaluator raised,
    and an empty rule list.  When the verifier returns the session log is
    called next, once; when the verifier raises the session log is not
    called and the request raises what the verifier raised. *)
Theorem chat_calls_in_order (E : Env) (req : SimpleChatRequest) (w : World) :
  store_ok w ->
  exists conv structured raw tail,
    calls (fst (chat E req w))
    = calls w
      ++ [CallOllama (sent_messages E req w); CallExtract conv;
          CallEvaluate structured; CallVerify raw []] ++ tail
    /\ structured = match extract_structured E conv with
                    | Ok s => s
                    | Raise _ => ∅
                    end
    /\ raw = match evaluate_triage E structured with
             | Ok v => v
             | Raise _ => FALLBACK_TRIAGE
             end
    /\ match verify E raw [] with
       | Ok _ => exists record, tail = [CallLog (session_id E req) record]
       | Raise e => tail = [] /\ snd (chat E req w) = Raise e
       end.
Proof.
  intros Hok. destruct (chat_run E req w Hok) as (ps & _ & Hrun).
  cbv zeta in Hrun.
  set (conv := join newline (map line ps)) in *.
  exists conv, (stage_extract E conv), (stage_evaluate E (stage_extract E conv)).
  destruct (verify E (stage_evaluate E (stage_extract E conv)) []) as [verified | e];
    rewrite Hrun; cbn [fst snd with_calls calls after_reply].
  - eexists. split; [now rewrite <- app_assoc|].
    split; [reflexivity|]. split; [reflexivity|]. eexists. reflexivity.
  - exists []. split; [now rewrite <- app_assoc|].
    split; [reflexivity|]. split; [reflexivity|]. now split.
Qed.

Lemma chat_calls_in_order_witness :
  store_ok initial
  /\ exists conv structured raw tail,
       calls (fst (chat all_down hello initial))
       = calls initial
         ++ [CallOllama (sent_messages all_down hello initial); CallExtract conv;
             CallEvaluate structured; CallVerify raw []] ++ tail
       /\ structured = match extract_structured all_down conv with
                       | Ok s => s
                       | Raise _ => ∅
                       end
       /\ raw = match evaluate_triage all_down structured with
                | Ok v => v
                | Raise _ => FALLBACK_TRIAGE
                end
       /\ match verify all_down raw [] with
          | Ok _ => exists record, tail = [CallLog (session_id all_down hello) record]
          | Raise e => tail = [] /\ snd (chat all_down hello initial) = Raise e
          end.
Proof.
  split; [exact store_ok_initial|].
  exact (chat_calls_in_order all_down hello initial store_ok_initial).
Defined.

(** X12.  In a store that holds turns of the route, a request that returns
    has handed the session log one record, under its session id: the turn
    list of the session as the store now holds it, both new turns
    included, and the record and the triage display that the response
    carries.  When the session log raises, the request raises the same,
    after both turns were stored. *)
Theorem chat_logs_what_it_returns (E : Env) (req : SimpleChatRequest) (w : World) :
  store_ok w ->
  (forall resp, snd (chat E req w) = Ok resp ->
     exists turns,
       SESSIONS (fst (chat E req w)) !! session_id E req = Some turns
       /\ log_calls (calls (fst (chat E req w)))
          = log_calls (calls w)
            ++ [(session_id E req,
                 {| log_session_turns := turns; log_structured := structured resp;
                    log_triage := triage resp; log_ts := time_ts E |})])
  /\ (forall e, (forall sid record, log_session E sid record = Raise e) ->
       (forall raw, exists verified, verify E raw [] = Ok verified) ->
       snd (chat E req w) = Raise e
       /\ SESSIONS (fst (chat E req w)) !! session_id E req
          = Some (prior_turns E req w
                  ++ exchange (req_message req, fst (answer E req w)))).
Proof.
  intros Hok. destruct (chat_run E req w Hok) as (ps & Hps & Hrun).
  cbv zeta in Hrun.
  set (conv := join newline (map line ps)) in *.
  split.
  - intros resp Hresp. exists (map turn ps).
    rewrite chat_sessions, lookup_insert_eq, Hps. split; [reflexivity|].
    rewrite Hrun in Hresp |- *.
    destruct (verify E (stage_evaluate E (stage_extract E conv)) []) as [verified | e];
      [|discriminate].
    cbn [fst snd with_calls calls after_reply] in *.
    destruct (log_session E _ _) as [[] | e]; [|discriminate].
    injection Hresp as <-. cbn [structured triage].
    rewrite !log_calls_app. cbn [log_calls]. rewrite app_nil_r.
    now rewrite Hps.
  - intros e Hlog Hver. split; [|now rewrite chat_sessions, lookup_insert_eq].
    rewrite Hrun.
    destruct (Hver (stage_evaluate E (stage_extract E conv))) as [verified ->].
    cbn [snd]. now rewrite Hlog.
Qed.

Lemma chat_logs_what_it_returns_witness :
  store_ok after_hello
  /\ exists resp turns,
       snd (chat (healthy "Sleep.") hello after_hello) = Ok resp
       /\ SESSIONS (fst (chat (healthy "Sleep.") hello after_hello)) !! "s1" = Some turns
       /\ log_calls (calls (fst (chat (healthy "Sleep.") hello after_hello)))
          = log_calls (calls after_hello)
            ++ [("s1",
                 {| log_session_turns := turns; log_structured := structured resp;
                    log_triage := triage resp; log_ts := 1700000001 |})].
Proof.
  assert (H : store_ok after_hello) by apply chat_store_ok, store_ok_initial.
  split; [exact H|].
  destruct (snd (chat (healthy "Sleep.") hello after_hello)) as [resp | e] eqn:Hr;
    [|vm_compute in Hr; discriminate].
  destruct (proj1 (chat_logs_what_it_returns (healthy "Sleep.") hello after_hello H)
              resp Hr) as (turns & Ht & Hc).
  exists resp, turns. split; [reflexivity|]. split; [exact Ht | exact Hc].
Defined.

End Pipeline.

(** * The patient simulator and the report routes *)

Section Simulator.

(** X13.  A simulation either fails or replaces the message log.  When it
    returns, the log holds exactly three messages, whatever it held
    before: the complaint of a patient of the file, the question of the
    doctor, and the reply that is returned; the patient is an entry of
    the file.  Every failure is an error 500 and leaves the log as it
    was.  The stored sessions are never touched. *)
Theorem simulate_replaces_log (S : SimEnv) (w : World) :
  SESSIONS (fst (simulate_patient_chat S w)) = SESSIONS w
  /\ match snd (simulate_patient_chat S w) with
     | Returned sim =>
       (exists entries patient,
          file S = Vignettes entries /\ In patient entries
          /\ patient_name sim = default "Unknown" (v_name patient)
          /\ message_history sim
             = [log_message "patient"
                  (default "No complaint provided" (v_chief_complaint patient));
                log_message "doctor"
                  ("Can you describe your "
                   +:+ join ", " (default [] (v_symptoms patient))
                   +:+ " in a bit more detail?")])
       /\ message_logs (fst (simulate_patient_chat S w))
          = message_history sim ++ [log_message "doctor" (doctor_reply_text sim)]
       /\ length (message_logs (fst (simulate_patient_chat S w))) = 3
     | HTTPError e =>
       status_code e = 500 /\ fst (simulate_patient_chat S w) = w
       /\ (file S = FileMissing \/ (exists text, file S = FileError text)
           \/ file S = NotAList \/ file S = Vignettes [])
     | KeyMissing _ => False
     end.
Proof.
  split; [apply simulate_frame|].
  unfold simulate_patient_chat, choose_patient.
  destruct (file S) as [| text | | [|first rest]] eqn:Hf; cbn [fst snd].
  - repeat split; auto.
  - repeat split; eauto.
  - repeat split; auto.
  - repeat split; auto.
  - split; [|split; reflexivity].
    eexists _, _. split; [reflexivity|]. split; [|split; reflexivity].
    apply nth_In. apply Nat.mod_upper_bound. discriminate.
Qed.

End Simulator.

Section ReportRoutes.

(** X14.  A report route says that a report is saved only when its agent
    returned the text of the report for the whole message log and the
    insert of the document returned: the document carries the email of
    the current user, the text, and the whole log.  With fewer than two
    logged messages the route calls nothing and returns its notice.
    Every failure, of the agent, of the insert or of a user without
    email, is an error 500. *)
Theorem reports_saved_only_when_stored (R : ReportEnv) (current_user : pydict)
    (w : World) :
  match snd (generate_summary_api R current_user w) with
  | Returned r =>
    match report_saved r with
    | None => (length (message_logs w) < 2)%nat
              /\ fst (generate_summary_api R current_user w) = []
    | Some _ =>
      (2 <= length (message_logs w))%nat
      /\ exists email,
           current_user !! "email" = Some email
           /\ generate_summary R (message_logs w) = Ok (report_text r)
           /\ insert_summary R
                {| doc_user_email := email; doc_timestamp := report_utcnow R;
                   doc_text := report_text r;
                   doc_conversation := message_logs w |} = Ok tt
           /\ fst (generate_summary_api R current_user w)
              = [CallSummaryAgent (message_logs w);
                 CallSummaryInsert
                   {| doc_user_email := email; doc_timestamp := report_utcnow R;
                      doc_text := report_text r;
                      doc_conversation := message_logs w |}]
    end
  | HTTPError e => status_code e = 500 /\ (2 <= length (message_logs w))%nat
  | KeyMissing _ => False
  end
  /\ match snd (generate_differential_diagnosis_api R current_user w) with
     | Returned r =>
       match report_saved r with
       | None => (length (message_logs w) < 2)%nat
                 /\ fst (generate_differential_diagnosis_api R current_user w) = []
       | Some _ =>
         (2 <= length (message_logs w))%nat
         /\ exists email,
              current_user !! "email" = Some email
              /\ generate_differential_diagnosis R (message_logs w)
                 = Ok (report_text r)
              /\ insert_diagnosis R
                   {| doc_user_email := email; doc_timestamp := report_utcnow R;
                      doc_text := report_text r;
                      doc_conversation := message_logs w |} = Ok tt
              /\ fst (generate_differential_diagnosis_api R current_user w)
                 = [CallDiagnosisAgent (message_logs w);
                    CallDiagnosisInsert
                      {| doc_user_email := email; doc_timestamp := report_utcnow R;
                         doc_text := report_text r;
                         doc_conversation := message_logs w |}]
       end
     | HTTPError e => status_code e = 500 /\ (2 <= length (message_logs w))%nat
     | KeyMissing _ => False
     end.
Proof.
  split.
  - unfold generate_summary_api.
    destruct (length (message_logs w) <? 2)%nat eqn:Hn.
    + apply Nat.ltb_lt in Hn. now split.
    + apply Nat.ltb_ge in Hn.
      destruct (generate_summary R (message_logs w)) as [text | e] eqn:Ha;
        [|now split].
      destruct (current_user !! "email") as [email|]; [|now split].
      destruct (insert_summary R _) as [[] | e] eqn:Hi; [|now split].
      cbn [snd fst report_saved report_text]. split; [exact Hn|].
      exists email. repeat split; assumption.
  - unfold generate_differential_diagnosis_api.
    destruct (length (message_logs w) <? 2)%nat eqn:Hn.
    + apply Nat.ltb_lt in Hn. now split.
    + apply Nat.ltb_ge in Hn.
      destruct (generate_differential_diagnosis R (message_logs w)) as [text | e] eqn:Ha;
        [|now split].
      destruct (current_user !! "email") as [email|]; [|now split].
      destruct (insert_diagnosis R _) as [[] | e] eqn:Hi; [|now split].
      cbn [snd fst report_saved report_text]. split; [exact Hn|].
      exists email. repeat split; assumption.
Qed.

Lemma report_agent_first (R : ReportEnv) (current_user : pydict) (w : World) :
  (2 <= length (message_logs w))%nat ->
  (exists rest, fst (generate_summary_api R current_user w)
                = CallSummaryAgent (message_logs w) :: rest)
  /\ (exists rest, fst (generate_differential_diagnosis_api R current_user w)
                   = CallDiagnosisAgent (message_logs w) :: rest).
Proof.
  intros Hn. apply Nat.ltb_ge in Hn.
  unfold generate_summary_api, generate_differential_diagnosis_api. rewrite Hn.
  split.
  - destruct (generate_summary R _); [|eauto].
    destruct (current_user !! "email"); [|eauto].
    destruct (insert_summary R _); eauto.
  - destruct (generate_differential_diagnosis R _); [|eauto].
    destruct (current_user !! "email"); [|eauto].
    destruct (insert_diagnosis R _); eauto.
Qed.

(** X15.  After a chat request, whatever its outcome, both report routes
    go to their agent, never to the notice, and hand it the whole message
    log of the process, which ends with the two messages of that request:
    for the first request of a session these two are the whole
    conversation, for a later request the conversation is everything
    logged since the log was last emptied, by any session. *)
Theorem reports_after_chat (E : Env) (req : SimpleChatRequest) (w : World)
    (R : ReportEnv) (current_user : pydict) :
  exists earlier rest rest',
    message_logs (fst (chat E req w))
    = earlier ++ logged (req_message req, fst (answer E req w))
    /\ earlier = match SESSIONS w !! session_id E req with
                 | Some _ => message_logs w
                 | None => []
                 end
    /\ fst (generate_summary_api R current_user (fst (chat E req w)))
       = CallSummaryAgent
           (earlier ++ logged (req_message req, fst (answer E req w))) :: rest
    /\ fst (generate_differential_diagnosis_api R current_user (fst (chat E req w)))
       = CallDiagnosisAgent
           (earlier ++ logged (req_message req, fst (answer E req w))) :: rest'.
Proof.
  destruct (report_agent_first R current_user (fst (chat E req w)))
    as [[rest Hs] [rest' Hd]].
  { rewrite chat_message_logs, length_app. simpl. lia. }
  eexists _, rest, rest'. split; [apply chat_message_logs|].
  split; [reflexivity|]. rewrite <- chat_message_logs. now split.
Qed.

End ReportRoutes.

(** * Accounts and tokens *)

Section Accounts.

Lemma find_one_some (users : collection) (email : string) (doc : pydict) :
  find_one users email = Some doc -> In doc users /\ doc !! "email" = Some email.
Proof.
  unfold find_one. intros H. apply find_some in H as [Hin Hb].
  split; [exact Hin|]. now apply bool_decide_eq_true in Hb.
Qed.

Lemma emails_app (users more : collection) :
  emails (users ++ more) = emails users ++ emails more.
Proof. unfold emails. apply omap_app. Qed.

Lemma emails_In (users : collection) (email : string) :
  In email (emails users) <-> exists doc, In doc users /\ doc !! "email" = Some email.
Proof.
  unfold emails. rewrite <- list_elem_of_In, list_elem_of_omap. split.
  - intros (doc & Hin & He). exists doc. now rewrite <- list_elem_of_In.
  - intros (doc & Hin & He). exists doc. now rewrite list_elem_of_In.
Qed.

Lemma find_one_none (users : collection) (email : string) :
  find_one users email = None <-> ~ In email (emails users).
Proof.
  rewrite emails_In. unfold find_one. split.
  - intros H (doc & Hin & He).
    apply (find_none _ _ H) in Hin. apply bool_decide_eq_false in Hin. congruence.
  - intros H. destruct (List.find _ users) as [doc|] eqn:Hf; [|reflexivity].
    exfalso. apply H. exists doc. now apply find_one_some.
Qed.

Lemma find_one_new (users : collection) (email : string) (doc : pydict) :
  find_one users email = None -> doc !! "email" = Some email ->
  find_one (insert_one users doc) email = Some doc.
Proof.
  unfold find_one, insert_one. intros Hn He.
  induction users as [|d users IH]; simpl in *.
  - now rewrite bool_decide_eq_true_2.
  - destruct (bool_decide (d !! "email" = Some email)); [discriminate | auto].
Qed.

Lemma take_chars_short (s : string) (n : nat) :
  char_count s <= n -> take_chars n s = s.
Proof.
  revert n. induction s as [|c s IH]; intros n H; [reflexivity|].
  simpl in *. destruct (is_continuation c).
  - now rewrite IH.
  - destruct n as [|n]; [lia|]. rewrite IH by lia. reflexivity.
Qed.

Lemma take_chars_count (s : string) (n : nat) :
  char_count (take_chars n s) <= n /\ exists rest, s = take_chars n s +:+ rest.
Proof.
  revert n. induction s as [|c s IH]; intros n; [split; [simpl; lia | now exists ""]|].
  simpl. destruct (is_continuation c) eqn:Hc.
  - destruct (IH n) as [H [rest Hr]]. simpl. rewrite Hc.
    split; [exact H|]. exists rest. simpl. now rewrite <- Hr.
  - destruct n as [|n]; [split; [simpl; lia | now exists (String c s)]|].
    destruct (IH n) as [H [rest Hr]]. simpl. rewrite Hc.
    split; [lia|]. exists rest. simpl. now rewrite <- Hr.
Qed.

(** X16.  What is hashed for a password is its first 72 characters: never
    more than 72 characters, the start of the password, and the whole
    password when it has at most 72; two passwords that agree on their
    first 72 characters are hashed as one. *)
Theorem hash_password_first_72 (L : Lib) (password : string) :
  exists hashed_text rest,
    hash_password L password = pwd_hash L hashed_text
    /\ char_count hashed_text <= 72
    /\ password = hashed_text +:+ rest
    /\ (char_count password <= 72 -> hashed_text = password)
    /\ (forall other, take_chars 72 other = hashed_text ->
                      hash_password L other = hash_password L password).
Proof.
  destruct (take_chars_count password 72) as [Hc [rest Hr]].
  exists (take_chars 72 password), rest.
  split; [reflexivity|]. split; [exact Hc|]. split; [exact Hr|].
  split; [apply take_chars_short|].
  intros other Ho. unfold hash_password. now rewrite Ho.
Qed.

Lemma hash_password_first_72_witness :
  char_count "s3cret-Ω" <= 72
  /\ hash_password
       {| pwd_hash := fun p => "h:" +:+ p; pwd_verify := fun p h => String.eqb h ("h:" +:+ p);
          jwt_encode := fun _ => "t"; jwt_decode := fun _ => None; utcnow := 0;
          ACCESS_TOKEN_EXPIRE_MINUTES := 60 |} "s3cret-Ω"
     = "h:s3cret-Ω".
Proof.
  assert (H : char_count "s3cret-Ω" <= 72) by (vm_compute; lia).
  split; [exact H|].
  destruct (hash_password_first_72
              {| pwd_hash := fun p => "h:" +:+ p;
                 pwd_verify := fun p h => String.eqb h ("h:" +:+ p);
                 jwt_encode := fun _ => "t"; jwt_decode := fun _ => None; utcnow := 0;
                 ACCESS_TOKEN_EXPIRE_MINUTES := 60 |} "s3cret-Ω")
    as (text & rest & Hh & _ & _ & Hs & _).
  rewrite Hh, (Hs H). reflexivity.
Defined.

(** X17.  A token expires at the time of the clock plus the given life.
    No life given, or a life of zero, is the configured number of
    minutes: a life of zero does not give a token that has expired.  The
    other keys of the data are encoded as they are, and an [exp] of the
    data is replaced. *)
Theorem token_lifetime (L : Lib) (data : gmap string jvalue) :
  create_access_token L data None
  = jwt_encode L (<["exp" := JTime (utcnow L + ACCESS_TOKEN_EXPIRE_MINUTES L * 60000000)]> data)
  /\ create_access_token L data (Some 0%Z) = create_access_token L data None
  /\ (forall d, d <> 0%Z ->
        create_access_token L data (Some d)
        = jwt_encode L (<["exp" := JTime (utcnow L + d)]> data))
  /\ (forall delta v,
        create_access_token L (<["exp" := v]> data) delta
        = create_access_token L data delta)
  /\ (forall delta, exists payload,
        create_access_token L data delta = jwt_encode L payload
        /\ (exists t, payload !! "exp" = Some (JTime t))
        /\ forall k, k <> "exp" -> payload !! k = data !! k).
Proof.
  split; [reflexivity|]. split; [reflexivity|]. split.
  - intros d Hd. unfold create_access_token.
    destruct (d =? 0)%Z eqn:He; [apply Z.eqb_eq in He; congruence | reflexivity].
  - split.
    + intros delta v. unfold create_access_token. now rewrite insert_insert_eq.
    + intros delta. eexists. split; [reflexivity|]. split.
      * eexists. apply lookup_insert_eq.
      * intros k Hk. now rewrite lookup_insert_ne.
Qed.

End Accounts.

Lemma token_lifetime_witness :
  (120000000 <> 0)%Z
  /\ create_access_token demo_lib (subject "ann@example.org") (Some 120000000%Z)
     = jwt_encode demo_lib
         (<["exp" := JTime 120001000]> (subject "ann@example.org")).
Proof.
  assert (H : (120000000 <> 0)%Z) by discriminate.
  split; [exact H|].
  exact (proj1 (proj2 (proj2 (token_lifetime demo_lib (subject "ann@example.org"))))
           120000000%Z H).
Defined.

Section Login.

(** X18.  Registrations run one at a time, each from its lookup to its
    insert before the next starts, keep the emails of the accounts
    distinct.  A registration, by either route, that starts from accounts
    with distinct emails answers, for an email that has an account, with
    the error 400 and leaves the accounts as they are; for a new email it
    adds one account, with that email, at the end; so every collection
    reached from the empty one by such registrations has distinct
    emails.  The qualifier is needed: each route is a lookup and, where
    that found nothing, the insert of its document, the collection has no
    unique index, and two registrations of one new email whose lookups
    are both answered before either insert leave two accounts with that
    email. *)
Theorem register_keeps_emails_unique :
  (forall (L : Lib) (user : UserRegister) (legacy : User) (users : collection),
     NoDup (emails users) ->
     NoDup (emails (fst (api_register L user users)))
     /\ NoDup (emails (fst (register L legacy users)))
     /\ (In (reg_email user) (emails users) ->
         api_register L user users
         = (users, HTTPError {| status_code := 400; detail := "Email already registered" |}))
     /\ (In (user_email legacy) (emails users) ->
         register L legacy users
         = (users, HTTPError {| status_code := 400; detail := "Email already registered" |}))
     /\ (~ In (reg_email user) (emails users) ->
         emails (fst (api_register L user users)) = emails users ++ [reg_email user])
     /\ (~ In (user_email legacy) (emails users) ->
         emails (fst (register L legacy users)) = emails users ++ [user_email legacy]))
  /\ (forall users : collection, registrations users -> NoDup (emails users))
  /\ (forall (L : Lib) (user : UserRegister) (users : collection),
        api_register L user users
        = match find_one users (reg_email user) with
          | Some _ =>
            (users,
             HTTPError {| status_code := 400; detail := "Email already registered" |})
          | None =>
            (insert_one users (api_register_doc L user),
             Returned {| ok := true;
                         token := create_access_token L (subject (reg_email user)) None;
                         name := reg_name user |})
          end)
  /\ (forall (L : Lib) (user : User) (users : collection),
        register L user users
        = match find_one users (user_email user) with
          | Some _ =>
            (users,
             HTTPError {| status_code := 400; detail := "Email already registered" |})
          | None =>
            (insert_one users (register_doc L user),
             Returned "User registered successfully")
          end)
  /\ (forall (L : Lib) (user : UserRegister),
        api_register_doc L user !! "email" = Some (reg_email user))
  /\ (forall (L : Lib) (user : User),
        register_doc L user !! "email" = Some (user_email user))
  /\ (forall (users : collection) (email : string) (doc doc' : pydict),
        doc !! "email" = Some email -> doc' !! "email" = Some email ->
        ~ In email (emails users) ->
        emails (overlapped users email email doc doc') = emails users ++ [email; email]
        /\ ~ NoDup (emails (overlapped users email email doc doc'))).
Proof.
  assert (Hstep : forall (L : Lib) (user : UserRegister) (legacy : User)
                         (users : collection),
     NoDup (emails users) ->
     NoDup (emails (fst (api_register L user users)))
     /\ NoDup (emails (fst (register L legacy users)))
     /\ (In (reg_email user) (emails users) ->
         api_register L user users
         = (users, HTTPError {| status_code := 400; detail := "Email already registered" |}))
     /\ (In (user_email legacy) (emails users) ->
         register L legacy users
         = (users, HTTPError {| status_code := 400; detail := "Email already registered" |}))
     /\ (~ In (reg_email user) (emails users) ->
         emails (fst (api_register L user users)) = emails users ++ [reg_email user])
     /\ (~ In (user_email legacy) (emails users) ->
         emails (fst (register L legacy users)) = emails users ++ [user_email legacy])).
  { intros L user legacy users Hnd.
    assert (Hapi : forall e, ~ In e (emails users) -> NoDup (emails users ++ [e])).
    { intros e He. apply NoDup_app. split; [exact Hnd|]. split.
      - intros x Hx Hk. apply list_elem_of_singleton in Hk. subst x.
        now apply He, list_elem_of_In.
      - apply NoDup_singleton. }
    assert (Hnew1 : ~ In (reg_email user) (emails users) ->
              emails (fst (api_register L user users)) = emails users ++ [reg_email user]).
    { intros Hn. unfold api_register. rewrite (proj2 (find_one_none _ _) Hn).
      cbn [fst]. unfold insert_one. rewrite emails_app. reflexivity. }
    assert (Hnew2 : ~ In (user_email legacy) (emails users) ->
              emails (fst (register L legacy users)) = emails users ++ [user_email legacy]).
    { intros Hn. unfold register. rewrite (proj2 (find_one_none _ _) Hn).
      cbn [fst]. unfold insert_one. rewrite emails_app. reflexivity. }
    assert (Hold1 : In (reg_email user) (emails users) ->
              api_register L user users
              = (users, HTTPError {| status_code := 400; detail := "Email already registered" |})).
    { intros Hin. unfold api_register.
      destruct (find_one users (reg_email user)) eqn:Hf; [reflexivity|].
      now apply find_one_none in Hf. }
    assert (Hold2 : In (user_email legacy) (emails users) ->
              register L legacy users
              = (users, HTTPError {| status_code := 400; detail := "Email already registered" |})).
    { intros Hin. unfold register.
      destruct (find_one users (user_email legacy)) eqn:Hf; [reflexivity|].
      now apply find_one_none in Hf. }
    split; [|split; [|now repeat split]].
    - destruct (in_dec string_dec (reg_email user) (emails users)) as [Hin | Hn].
      + now rewrite (Hold1 Hin).
      + rewrite (Hnew1 Hn). now apply Hapi.
    - destruct (in_dec string_dec (user_email legacy) (emails users)) as [Hin | Hn].
      + now rewrite (Hold2 Hin).
      + rewrite (Hnew2 Hn). now apply Hapi. }
  split; [exact Hstep|]. split.
  { intros users Hreg. induction Hreg as [|L user users _ IH|L user users _ IH].
    - constructor.
    - exact (proj1 (Hstep L user {| user_email := ""; user_password := "" |} users IH)).
    - exact (proj1 (proj2 (Hstep L {| reg_name := ""; reg_email := ""; reg_password := "" |}
                             user users IH))). }
  split; [reflexivity|]. split; [reflexivity|].
  split; [intros L user; unfold api_register_doc;
          now rewrite lookup_insert_ne, lookup_insert_eq by discriminate|].
  split; [intros L user; unfold register_doc; now rewrite lookup_insert_eq|].
  intros users email doc doc' Hd Hd' Hn.
  assert (He : emails (overlapped users email email doc doc')
               = emails users ++ [email; email]).
  { unfold overlapped. rewrite (proj2 (find_one_none _ _) Hn).
    unfold insert_one. rewrite !emails_app, <- app_assoc.
    unfold emails at 2 3. cbn [omap list_omap]. now rewrite Hd, Hd'. }
  split; [exact He|].
  rewrite He. intros Hnd. apply NoDup_app in Hnd as (_ & _ & Hnd).
  apply NoDup_cons in Hnd as [Hnot _]. apply Hnot. now left.
Qed.

(** Ann and then Bob register, one after the other: two accounts; Ann
    again is refused.  Bob twice, the one overlapping the other: two
    accounts with his email. *)
Lemma register_keeps_emails_unique_witness :
  registrations (fst (register demo_lib bob (fst (api_register demo_lib ann []))))
  /\ NoDup (emails (fst (register demo_lib bob (fst (api_register demo_lib ann [])))))
  /\ emails (fst (register demo_lib bob (fst (api_register demo_lib ann []))))
     = ["ann@example.org"; "bob@example.org"]
  /\ api_register demo_lib ann (fst (api_register demo_lib ann []))
     = (fst (api_register demo_lib ann []),
        HTTPError {| status_code := 400; detail := "Email already registered" |})
  /\ ~ In "bob@example.org" (emails [])
  /\ emails (overlapped [] "bob@example.org" "bob@example.org"
               (register_doc demo_lib bob) (register_doc demo_lib bob))
     = ["bob@example.org"; "bob@example.org"].
Proof.
  destruct register_keeps_emails_unique as (Hstep & Hall & _ & _ & _ & Hdoc & Hover).
  assert (Hreg : registrations
                   (fst (register demo_lib bob (fst (api_register demo_lib ann [])))))
    by (apply registrations_legacy, registrations_api, registrations_none).
  assert (H1 : NoDup (emails (fst (api_register demo_lib ann []))))
    by (apply Hall, registrations_api, registrations_none).
  assert (Hin : In (reg_email ann) (emails (fst (api_register demo_lib ann []))))
    by (vm_compute; now left).
  assert (Hnone : ~ In "bob@example.org" (emails [])) by (intros []).
  split; [exact Hreg|]. split; [exact (Hall _ Hreg)|].
  split; [vm_compute; reflexivity|].
  split; [exact (proj1 (proj2 (proj2 (Hstep demo_lib ann bob _ H1))) Hin)|].
  split; [exact Hnone|].
  exact (proj1 (Hover [] "bob@example.org" _ _ (Hdoc demo_lib bob) (Hdoc demo_lib bob)
                  Hnone)).
Defined.

(** X19.  An account registered with a password of at most 72 characters
    can log in with it, where the library verifies a password against its
    own hash: after [/api/register] the route [/api/login] returns a
    token for the email and the registered name, and after [/register]
    the route [/login] returns a bearer token. *)
Theorem register_then_login (L1 L2 : Lib) (users : collection)
    (name email secret : string) :
  ~ In email (emails users) ->
  char_count secret <= 72 ->
  pwd_verify L2 secret (pwd_hash L1 secret) = true ->
  api_login L2 {| user_email := email; user_password := secret |}
    (fst (api_register L1
            {| reg_name := name; reg_email := email; reg_password := secret |}
            users))
  = Returned {| ok := true; token := create_access_token L2 (subject email) None;
                name := name |}
  /\ login L2 {| username := email; password := secret |}
       (fst (register L1 {| user_email := email; user_password := secret |} users))
     = Returned {| access_token := create_access_token L2 (subject email) None;
                   token_type := "bearer" |}.
Proof.
  intros Hnew Hlen Hver. apply find_one_none in Hnew.
  unfold api_register, register, api_login, login. cbn [reg_email user_email username].
  rewrite Hnew. cbn [fst].
  split.
  - rewrite (find_one_new users email _ Hnew)
      by now rewrite lookup_insert_ne, lookup_insert_eq by discriminate.
    rewrite !lookup_insert_eq.
    do 2 (rewrite lookup_insert_ne by discriminate).
    rewrite lookup_insert_eq. rewrite lookup_insert_ne by discriminate.
    rewrite lookup_insert_eq.
    unfold verify_password, hash_password. cbn [user_password reg_password].
    rewrite (take_chars_short _ _ Hlen), Hver. reflexivity.
  - rewrite (find_one_new users email _ Hnew) by now rewrite lookup_insert_eq.
    rewrite lookup_insert_ne by discriminate. rewrite !lookup_insert_eq.
    unfold verify_password, hash_password. cbn [user_password password].
    rewrite (take_chars_short _ _ Hlen), Hver. reflexivity.
Qed.

Lemma register_then_login_witness :
  ~ In "ann@example.org" (emails [])
  /\ char_count "s3cret" <= 72
  /\ pwd_verify demo_lib "s3cret" (pwd_hash demo_lib "s3cret") = true
  /\ api_login demo_lib ann_login (fst (api_register demo_lib ann []))
     = Returned {| ok := true; token := "token:ann@example.org"; name := "Ann" |}.
Proof.
  assert (H1 : ~ In "ann@example.org" (emails [])) by (intros []).
  assert (H2 : char_count "s3cret" <= 72) by (vm_compute; lia).
  assert (H3 : pwd_verify demo_lib "s3cret" (pwd_hash demo_lib "s3cret") = true)
    by reflexivity.
  split; [exact H1|]. split; [exact H2|]. split; [exact H3|].
  exact (proj1 (register_then_login demo_lib demo_lib [] "Ann" "ann@example.org"
                  "s3cret" H1 H2 H3)).
Defined.

(** X20.  Both login routes return a token only for an email that has an
    account whose stored hash the library verifies against the password
    given, and the token is made for the email of that account.  An
    unknown email and a wrong password are answered alike, with the
    error 401 and the same text. *)
Theorem login_needs_verified_password (L : Lib) (user : User) (users : collection) :
  match api_login L user users with
  | Returned s =>
    exists doc hashed,
      In doc users /\ doc !! "email" = Some (user_email user)
      /\ doc !! "password" = Some hashed
      /\ pwd_verify L (user_password user) hashed = true
      /\ token s = create_access_token L (subject (user_email user)) None
  | HTTPError e =>
    e = {| status_code := 401; detail := "Invalid credentials" |}
    /\ (~ In (user_email user) (emails users)
        \/ exists doc hashed,
             find_one users (user_email user) = Some doc
             /\ doc !! "password" = Some hashed
             /\ pwd_verify L (user_password user) hashed = false)
  | KeyMissing key =>
    key = "password"
    /\ exists doc, find_one users (user_email user) = Some doc
                   /\ doc !! "password" = None
  end
  /\ match login L {| username := user_email user; password := user_password user |}
             users with
     | Returned b =>
       exists doc hashed,
         In doc users /\ doc !! "email" = Some (user_email user)
         /\ doc !! "password" = Some hashed
         /\ pwd_verify L (user_password user) hashed = true
         /\ access_token b = create_access_token L (subject (user_email user)) None
     | HTTPError e => e = {| status_code := 401; detail := "Invalid credentials" |}
     | KeyMissing key => key = "password"
     end.
Proof.
  unfold api_login, login, verify_password. cbn [username password].
  destruct (find_one users (user_email user)) as [doc|] eqn:Hf.
  - destruct (find_one_some _ _ _ Hf) as [Hin He]. rewrite He.
    destruct (doc !! "password") as [hashed|] eqn:Hp.
    + destruct (pwd_verify L (user_password user) hashed) eqn:Hv; cbn [negb].
      * split; exists doc, hashed; repeat split; assumption.
      * split; [|reflexivity]. split; [reflexivity|]. right. now exists doc, hashed.
    + split; [|reflexivity]. split; [reflexivity|]. now exists doc.
  - split; [|reflexivity]. split; [reflexivity|]. left. now apply find_one_none.
Qed.

(** A wrong password and an unknown email get the same answer. *)
Lemma login_needs_verified_password_witness :
  api_login demo_lib {| user_email := "ann@example.org"; user_password := "wrong" |}
    (fst (api_register demo_lib ann []))
  = HTTPError {| status_code := 401; detail := "Invalid credentials" |}
  /\ api_login demo_lib bob (fst (api_register demo_lib ann []))
     = HTTPError {| status_code := 401; detail := "Invalid credentials" |}.
Proof.
  pose proof (proj1 (login_needs_verified_password demo_lib
                       {| user_email := "ann@example.org"; user_password := "wrong" |}
                       (fst (api_register demo_lib ann [])))) as H1.
  pose proof (proj1 (login_needs_verified_password demo_lib bob
                       (fst (api_register demo_lib ann [])))) as H2.
  assert (E1 : api_login demo_lib
                 {| user_email := "ann@example.org"; user_password := "wrong" |}
                 (fst (api_register demo_lib ann []))
               = HTTPError (unauthorized "Invalid credentials"))
    by (vm_compute; reflexivity).
  assert (E2 : api_login demo_lib bob (fst (api_register demo_lib ann []))
               = HTTPError (unauthorized "Invalid credentials"))
    by (vm_compute; reflexivity).
  rewrite E1, E2.
  destruct H1 as [H1 _], H2 as [H2 _].
  split; f_equal; assumption.
Defined.

(** X21.  The user of a token is an account of the collection whose email
    is the subject of the token; every other case is an error 401: a
    token that does not decode, one without subject, or a subject
    without account.  Where the library decodes a token to the subject
    that was encoded, the token made for the email of an account gives
    the first account with that email. *)
Theorem current_user_of_token (L : Lib) (users : collection) (token : string) :
  match get_current_user L users token with
  | Returned user =>
    exists payload email,
      jwt_decode L token = Some payload
      /\ payload !! "sub" = Some (JStr email)
      /\ In user users /\ user !! "email" = Some email
  | HTTPError e => status_code e = 401
  | KeyMissing _ => False
  end
  /\ (forall L0 email doc delta,
        (forall payload e, payload !! "sub" = Some (JStr e) ->
           exists decoded, jwt_decode L (jwt_encode L0 payload) = Some decoded
                           /\ decoded !! "sub" = Some (JStr e)) ->
        find_one users email = Some doc ->
        get_current_user L users (create_access_token L0 (subject email) delta)
        = Returned doc).
Proof.
  split.
  - unfold get_current_user. destruct (jwt_decode L token) as [payload|] eqn:Hd;
      [|reflexivity].
    destruct (payload !! "sub") as [[| email | t]|] eqn:Hs; try reflexivity.
    destruct (find_one users email) as [user|] eqn:Hf; [|reflexivity].
    destruct (find_one_some _ _ _ Hf). now exists payload, email.
  - intros L0 email doc delta Hrt Hf.
    unfold get_current_user, create_access_token.
    match goal with |- context [jwt_encode L0 ?P] =>
      destruct (Hrt P email) as (decoded & -> & ->)
    end.
    + rewrite lookup_insert_ne by discriminate. apply lookup_insert_eq.
    + now rewrite Hf.
Qed.

Lemma current_user_of_token_witness :
  (forall payload e, payload !! "sub" = Some (JStr e) ->
     exists decoded, jwt_decode plain_lib (jwt_encode plain_lib payload) = Some decoded
                     /\ decoded !! "sub" = Some (JStr e))
  /\ get_current_user plain_lib (fst (api_register plain_lib ann []))
       (create_access_token plain_lib (subject "ann@example.org") None)
     = Returned (<["name" := "Ann"]>
                 (<["email" := "ann@example.org"]> (<["password" := "h:s3cret"]> ∅))).
Proof.
  assert (H : forall payload e, payload !! "sub" = Some (JStr e) ->
     exists decoded, jwt_decode plain_lib (jwt_encode plain_lib payload) = Some decoded
                     /\ decoded !! "sub" = Some (JStr e)).
  { intros payload e He. eexists. split; [reflexivity|].
    cbn [jwt_encode plain_lib]. rewrite He. apply lookup_insert_eq. }
  split; [exact H|].
  apply (proj2 (current_user_of_token plain_lib (fst (api_register plain_lib ann [])) "")
           plain_lib "ann@example.org" _ None H).
  vm_compute. reflexivity.
Defined.

Lemma before_at_spec (s : string) :
  contains "@" (before_at s) = false
  /\ exists rest, s = before_at s +:+ rest
                  /\ (rest = "" \/ exists r, rest = String "@" r).
Proof.
  induction s as [|c s (IH1 & rest & IH2 & IH3)].
  - split; [reflexivity|]. exists "". split; [reflexivity | now left].
  - cbn [before_at]. destruct (Ascii.eqb c "@") eqn:Hc.
    + apply Ascii.eqb_eq in Hc. subst c. split; [reflexivity|].
      exists (String "@" s). split; [reflexivity | right; now exists s].
    + split.
      * cbn [contains]. rewrite IH1, orb_false_r.
        destruct (String.prefix "@" (String c (before_at s))) eqn:Hp; [|reflexivity].
        apply prefix_app in Hp as [b Hb]. injection Hb as -> _.
        now rewrite Ascii.eqb_refl in Hc.
      * exists rest. split; [simpl; now rewrite <- IH2 | exact IH3].
Qed.

(** X22.  An account without a name, as [/register] makes it, is greeted
    by [/api/login] with the part of the email given before its first
    [@]: a text without [@] that starts the email, the whole email when
    it has no [@].  An account with a name is greeted with its name. *)
Theorem login_name_fallback (L : Lib) (user : User) (users : collection)
    (s : Session) :
  api_login L user users = Returned s ->
  exists doc,
    find_one users (user_email user) = Some doc
    /\ name s = match doc !! "name" with
                | Some n => n
                | None => before_at (user_email user)
                end
    /\ contains "@" (before_at (user_email user)) = false
    /\ exists rest, user_email user = before_at (user_email user) +:+ rest
                    /\ (rest = "" \/ exists r, rest = String "@" r).
Proof.
  unfold api_login. destruct (find_one users (user_email user)) as [doc|]; [|discriminate].
  destruct (doc !! "password") as [hashed|]; [|discriminate].
  destruct (negb _); [discriminate|].
  destruct (doc !! "email") as [email|]; [|discriminate].
  intros [= <-]. exists doc. split; [reflexivity|]. cbn [name].
  split; [now destruct (doc !! "name")|]. apply before_at_spec.
Qed.

Lemma login_name_fallback_witness :
  api_login demo_lib bob (fst (register demo_lib bob []))
  = Returned {| ok := true; token := "token:bob@example.org"; name := "bob" |}
  /\ exists doc,
       find_one (fst (register demo_lib bob [])) (user_email bob) = Some doc
       /\ "bob" = match doc !! "name" with
                  | Some n => n
                  | None => before_at (user_email bob)
                  end.
Proof.
  assert (H : api_login demo_lib bob (fst (register demo_lib bob []))
              = Returned {| ok := true; token := "token:bob@example.org"; name := "bob" |})
    by (vm_compute; reflexivity).
  split; [exact H|].
  destruct (login_name_fallback demo_lib bob _ _ H) as (doc & Hf & Hn & _).
  exists doc. split; [exact Hf | exact Hn].
Defined.

End Login.

(** * The marker and the cut *)

Section MarkerClaim.






End MarkerClaim.
